(** * RPG game: weapons, characters and inventory

    A shallow embedding of [rpg_game/weapon.py], [rpg_game/character.py] and
    [rpg_game/inventory.py], and of [Game.handle_victory] of
    [rpg_game/game.py].

    Python integers are unbounded and are modelled by [Z]; [//] is floor
    division, which is [Z.div] for a positive divisor.  Item weights are
    Python floats.  A weight is taken to be a finite float and is modelled
    by the rational [Q] it denotes, so [==] on weights is equality of
    rationals, while sums and products of weights are exact and rounding
    is outside the model.  The concrete runs below use weights that are
    small multiples of 1/2, on which binary floating point is exact, and
    no general statement about the inventory depends on the value of a
    sum or a product of weights.  The one float product of
    [character.py] is computed on the Standard Library's specification of
    IEEE 754 binary64.  Objects that the code mutates
    in place and may reach through several references (characters, items)
    live in a store indexed by references.  Class construction is not
    modelled: an object is the record of the attributes that its class
    declares or that its [__init__] assigns.  [random.random()] is an
    argument of the one method that calls it. *)

From Stdlib Require Import ZArith QArith Lia SpecFloat.
From stdpp Require Import base option strings list gmap pretty.

#[local] Open Scope Z_scope.

(* ===================================================================== *)
(** ** weapon.py *)
(* ===================================================================== *)

Module WeaponPy.

(** The five concrete subclasses of the abstract class [Weapon].  None of
    them inherits from another, so [isinstance(w, K)] holds exactly when
    [w] was built by class [K]. *)
Inductive WeaponClass := Rock | Paper | Scissors | Lizard | Spock.

#[global] Instance WeaponClass_eq_dec : EqDecision WeaponClass.
Proof. solve_decision. Defined.

(** [Weapon.__init__]: the attributes [name] and [damage_bonus]; [cls] is
    the class of the object. *)
Record Weapon := mkWeapon {
  cls : WeaponClass;
  name : string;
  damage_bonus : Z
}.

(** The [__init__] of each subclass. *)
Definition Rock_init : Weapon := mkWeapon Rock "Rock" 5.
Definition Paper_init : Weapon := mkWeapon Paper "Paper" 3.
Definition Scissors_init : Weapon := mkWeapon Scissors "Scissors" 4.
Definition Lizard_init : Weapon := mkWeapon Lizard "Lizard" 3.
Definition Spock_init : Weapon := mkWeapon Spock "Spock" 5.

(** The argument of [use] is typed [Any].  The code reads two attributes
    of it: [weapon] (through [hasattr] and [isinstance]) and [name]
    (through [getattr] with a default).  [target_weapon = None] stands for
    a target without the attribute and for one whose [weapon] is [None] or
    any object that is not of the five classes: all fail every
    [isinstance] test. *)
Record Target := mkTarget {
  target_name : option string;
  target_weapon : option Weapon
}.

(** [hasattr(target, 'weapon') and isinstance(target.weapon, K)] *)
Definition isinstance (target : Target) (K : WeaponClass) : bool :=
  match target_weapon target with
  | Some w => bool_decide (cls w = K)
  | None => false
  end.

(** [target.weapon.name], read only in branches where the weapon exists. *)
Definition weapon_name (target : Target) : string :=
  match target_weapon target with
  | Some w => name w
  | None => ""
  end.

(** [getattr(target, 'name', 'the target')] *)
Definition getattr_name (target : Target) : string :=
  default "the target" (target_name target).

(** Which of the three [return] statements of a [use] method is reached:
    the first one (the "Critical hit!" message), the second one (the
    "Not very effective..." message) or the last one. *)
Inductive Verdict := CriticalAdvantage | Disadvantage | Neutral.

#[global] Instance Verdict_eq_dec : EqDecision Verdict.
Proof. solve_decision. Defined.

Definition Rock_branch (target : Target) : Verdict :=
  if isinstance target Scissors then CriticalAdvantage
  else if isinstance target Paper then Disadvantage
  else Neutral.

Definition Paper_branch (target : Target) : Verdict :=
  if isinstance target Rock then CriticalAdvantage
  else if isinstance target Scissors then Disadvantage
  else Neutral.

Definition Scissors_branch (target : Target) : Verdict :=
  if isinstance target Paper || isinstance target Lizard then CriticalAdvantage
  else if isinstance target Rock || isinstance target Spock then Disadvantage
  else Neutral.

Definition Lizard_branch (target : Target) : Verdict :=
  if isinstance target Spock || isinstance target Paper then CriticalAdvantage
  else if isinstance target Rock || isinstance target Scissors then Disadvantage
  else Neutral.

Definition Spock_branch (target : Target) : Verdict :=
  if isinstance target Rock || isinstance target Scissors then CriticalAdvantage
  else if isinstance target Lizard || isinstance target Paper then Disadvantage
  else Neutral.

(** Dynamic dispatch of [use] on the class of [self]. *)
Definition use_branch (self : Weapon) (target : Target) : Verdict :=
  match cls self with
  | Rock => Rock_branch target
  | Paper => Paper_branch target
  | Scissors => Scissors_branch target
  | Lizard => Lizard_branch target
  | Spock => Spock_branch target
  end.

(** The message returned by [use]. *)
Definition use (self : Weapon) (target : Target) : string :=
  let s := name self in
  let w := weapon_name target in
  let t := getattr_name target in
  match cls self, use_branch self target with
  | Rock, CriticalAdvantage => s +:+ " crushes " +:+ w +:+ "! Critical hit!"
  | Rock, Disadvantage => s +:+ " is wrapped by " +:+ w +:+ "! Not very effective..."
  | Rock, Neutral => "Threw " +:+ s +:+ " at " +:+ t +:+ "!"
  | Paper, CriticalAdvantage => s +:+ " wraps around " +:+ w +:+ "! Critical hit!"
  | Paper, Disadvantage => s +:+ " is cut by " +:+ w +:+ "! Not very effective..."
  | Scissors, CriticalAdvantage => s +:+ " cut through " +:+ w +:+ "! Critical hit!"
  | Scissors, Disadvantage => s +:+ " are crushed by " +:+ w +:+ "! Not very effective..."
  | Lizard, CriticalAdvantage => s +:+ " poisons " +:+ w +:+ "! Critical hit!"
  | Lizard, Disadvantage => s +:+ " is defeated by " +:+ w +:+ "! Not very effective..."
  | Spock, CriticalAdvantage => s +:+ " vaporizes " +:+ w +:+ "! Critical hit!"
  | Spock, Disadvantage => s +:+ " is defeated by " +:+ w +:+ "! Not very effective..."
  | _, Neutral => "Used " +:+ s +:+ " on " +:+ t +:+ "!"
  end.

(** The matchup resolver over weapon kinds: the attacker's kind against
    the kind of the opposing weapon, [None] when there is none.  Only the
    class of either weapon is inspected by the branches above. *)
Definition resolve (a : WeaponClass) (b : option WeaponClass) : Verdict :=
  use_branch (mkWeapon a "" 0)
             (mkTarget None ((fun k => mkWeapon k "" 0) <$> b)).

(** The fixed table, written from the specification's list: which kinds a
    kind beats and which it loses to. *)
Definition table_beats (a b : WeaponClass) : bool :=
  match a, b with
  | Rock, Scissors => true
  | Paper, Rock => true
  | Scissors, Paper | Scissors, Lizard => true
  | Lizard, Spock | Lizard, Paper => true
  | Spock, Rock | Spock, Scissors => true
  | _, _ => false
  end.

Definition table_loses_to (a b : WeaponClass) : bool :=
  match a, b with
  | Rock, Paper => true
  | Paper, Scissors => true
  | Scissors, Rock | Scissors, Spock => true
  | Lizard, Rock | Lizard, Scissors => true
  | Spock, Lizard | Spock, Paper => true
  | _, _ => false
  end.

Definition table_verdict (a : WeaponClass) (b : option WeaponClass) : Verdict :=
  match b with
  | Some b =>
      if table_beats a b then CriticalAdvantage
      else if table_loses_to a b then Disadvantage
      else Neutral
  | None => Neutral
  end.

End WeaponPy.

(* ===================================================================== *)
(** ** character.py *)
(* ===================================================================== *)

Module CharacterPy.

(** The concrete subclasses of the abstract class [Character]. *)
Inductive CharacterClass :=
  | Player | DefenderSidekick | HealerSidekick | Goblin | Orc | Boss.

#[global] Instance CharacterClass_eq_dec : EqDecision CharacterClass.
Proof. solve_decision. Defined.

(** The attributes set by [Character.__init__] that the methods below read
    or write.  ([inventory], [sidekick] and [ability] are touched by none
    of them.)  The weapon is shared and never mutated, so it is held by
    value. *)
Record Character := mkCharacter {
  cls : CharacterClass;
  name : string;
  _health : Z;
  damage : Z;
  weapon : option WeaponPy.Weapon;
  level : Z;
  experience : Z
}.

(** [Character.__init__(name, health, damage, weapon=None)] *)
Definition Character_init (k : CharacterClass) (name : string)
    (health damage : Z) (weapon : option WeaponPy.Weapon) : Character :=
  mkCharacter k name health damage weapon 1 0.

(** [Player(name, health=100, damage=10)], [Goblin()], [Orc()] and
    [Boss(name, health, damage)]; all of them leave [weapon] at [None]. *)
Definition Player_init (name : string) (health damage : Z) : Character :=
  Character_init Player name health damage None.
Definition Goblin_init : Character := Character_init Goblin "Goblin" 30 5 None.
Definition Orc_init : Character := Character_init Orc "Orc" 60 8 None.
Definition Boss_init (name : string) (health damage : Z) : Character :=
  Character_init Boss name health damage None.

(** Assignments to single attributes. *)
Definition with_health (c : Character) (h : Z) : Character :=
  mkCharacter (cls c) (name c) h (damage c) (weapon c) (level c) (experience c).
Definition with_weapon (c : Character) (w : option WeaponPy.Weapon) : Character :=
  mkCharacter (cls c) (name c) (_health c) (damage c) w (level c) (experience c).
Definition with_experience (c : Character) (x : Z) : Character :=
  mkCharacter (cls c) (name c) (_health c) (damage c) (weapon c) (level c) x.

(** [take_damage]: [self._health = max(0, self._health - amount)] *)
Definition take_damage (c : Character) (amount : Z) : Character :=
  with_health c (Z.max 0 (_health c - amount)).

(** [is_alive]: [self._health > 0] *)
Definition is_alive (c : Character) : bool := 0 <? _health c.

(** [level_up(levels)]:
    [level += levels; _health += 10 * levels; damage += 2 * levels] *)
Definition level_up (c : Character) (levels : Z) : Character :=
  mkCharacter (cls c) (name c) (_health c + 10 * levels)
    (damage c + 2 * levels) (weapon c) (level c + levels) (experience c).

(** [add_experience(amount)]:
    [experience += amount; levels_gained = experience // 100;
     if levels_gained > 0: level_up(levels_gained)] *)
Definition add_experience (c : Character) (amount : Z) : Character :=
  let c1 := with_experience c (experience c + amount) in
  let levels_gained := experience c1 / 100 in
  if 0 <? levels_gained then level_up c1 levels_gained else c1.

(** The class body defines [get_health], [set_health] and [attack] twice;
    the later definition replaces the earlier one, so these are the ones
    at the end of the class. *)
Definition get_health (c : Character) : Z := _health c.

Definition set_health (c : Character) (new_health : Z) : Character :=
  if new_health <? 0 then with_health c 0 else with_health c new_health.

(** [self.damage + (self.weapon.damage_bonus if self.weapon else 0)];
    a weapon object is always truthy. *)
Definition total_damage (c : Character) : Z :=
  damage c + match weapon c with
             | Some w => WeaponPy.damage_bonus w
             | None => 0
             end.

(** *** Characters in a store

    [attack] takes two objects and mutates one of them; nothing prevents
    the two from being the same object.  Characters therefore live in a
    store and are passed by reference. *)

Definition ref := nat.

(** One call [logger.log_combat(attacker, defender, damage, note)].  The
    class [GameLogger] is not part of the sources; it is taken to record
    the call and to leave the characters alone. *)
Record LogEntry := mkLogEntry {
  log_attacker : ref;
  log_defender : ref;
  log_damage : Z;
  log_note : string
}.

Record World := mkWorld {
  chars : gmap ref Character;
  log : list LogEntry
}.

Definition update (w : World) (r : ref) (c : Character) : World :=
  mkWorld (<[r := c]> (chars w)) (log w).

(** [if logger: logger.log_combat(...)] *)
Definition log_combat (logger : bool) (w : World) (e : LogEntry) : World :=
  if logger then mkWorld (chars w) (log w ++ [e]) else w.

(** [Character.attack(self, enemy, logger=None)] *)
Definition Character_attack (w : World) (self enemy : ref) (logger : bool)
    : option (World * Z) :=
  s ← chars w !! self;
  let total := total_damage s in
  e ← chars w !! enemy;
  let current_health := get_health e in
  let w1 := update w enemy (set_health e (current_health - total)) in
  let w2 := log_combat logger w1 (mkLogEntry self enemy total "") in
  Some (w2, total).

(** [random.random() < 0.2] on the injected roll. *)
Definition critical (roll : Q) : bool := negb (Qle_bool (2 # 10) roll).

(** [Boss.attack(self, enemy, logger=None)], with the value of
    [random.random()] as an argument. *)
Definition Boss_attack (w : World) (self enemy : ref) (logger : bool) (roll : Q)
    : option (World * Z) :=
  '(w1, damage_dealt) ← Character_attack w self enemy logger;
  if critical roll then
    let extra_damage := damage_dealt in
    e ← chars w1 !! enemy;
    let w2 := update w1 enemy (take_damage e extra_damage) in
    let w3 := log_combat logger w2
                (mkLogEntry self enemy extra_damage "(critical hit!)") in
    Some (w3, damage_dealt + extra_damage)
  else Some (w1, damage_dealt).

(** Method resolution of [attack]: only [Boss] overrides it. *)
Definition attack (w : World) (self enemy : ref) (logger : bool) (roll : Q)
    : option (World * Z) :=
  s ← chars w !! self;
  match cls s with
  | Boss => Boss_attack w self enemy logger roll
  | _ => Character_attack w self enemy logger
  end.

(** The health of the character behind a reference. *)
Definition health_of (w : World) (r : ref) : option Z :=
  get_health <$> chars w !! r.

(** *** Worlds used in the scenarios *)

(** The player of the scenario: health 100, damage 10, Rock equipped. *)
Definition hero : Character :=
  with_weapon (Player_init "Hero" 100 10) (Some WeaponPy.Rock_init).

(** The hero at reference 0 and a goblin with the given health at 1. *)
Definition duel (goblin_health : Z) : World :=
  mkWorld (<[0%nat := hero]> (<[1%nat := with_health Goblin_init goblin_health]> ∅)) [].

(** A boss with base damage 50 and no weapon at reference 0, a player
    with health 100 at reference 1. *)
Definition boss_fight : World :=
  mkWorld (<[0%nat := Boss_init "Dragon Lord" 300 50]>
             (<[1%nat := Player_init "Hero" 100 10]> ∅)) [].

(** A player down to 30 health in front of the 50-damage boss. *)
Definition boss_fight_weak : World :=
  mkWorld (<[0%nat := Boss_init "Dragon Lord" 300 50]>
             (<[1%nat := Player_init "Hero" 30 10]> ∅)) [].

(** A boss with base damage 50 that carries Spock (bonus 5) at reference
    0, a player with the given health at reference 1. *)
Definition armed_boss : Character :=
  with_weapon (Boss_init "Dragon Lord" 300 50) (Some WeaponPy.Spock_init).

Definition boss_fight_armed (player_health : Z) : World :=
  mkWorld (<[0%nat := armed_boss]>
             (<[1%nat := Player_init "Hero" player_health 10]> ∅)) [].

(** *** The outcome of a critical hit *)

(** The world after a critical boss attack: the base attack, then
    [take_damage] of the same amount on the same target. *)
Definition after_critical (w : World) (self enemy : ref) (s e : Character)
    (logger : bool) : World :=
  let d := total_damage s in
  let w1 := log_combat logger
              (update w enemy (with_health e (Z.max 0 (_health e - d))))
              (mkLogEntry self enemy d "") in
  log_combat logger
    (update w1 enemy (take_damage (with_health e (Z.max 0 (_health e - d))) d))
    (mkLogEntry self enemy d "(critical hit!)").

(** *** Special abilities *)

(** Python floats are IEEE binary64 numbers: 53 bits of precision, largest
    exponent 1024.  [float_of_int] is the conversion an int operand of a
    float product undergoes: the nearest float, ties to even, and an
    [OverflowError] (here [None]) when the int is out of range. *)
Definition float_of_int (n : Z) : option spec_float :=
  match binary_normalize 53 1024 n 0 false with
  | S754_infinity _ => None
  | f => Some f
  end.

(** The float that the literal [0.2] denotes, 7205759403792794 * 2^-55. *)
Definition point_two : spec_float := S754_finite false 7205759403792794 (-55).

(** [int(f)]: truncation towards zero; an infinity or a NaN raises. *)
Definition int_of_float (f : spec_float) : option Z :=
  match f with
  | S754_zero _ => Some 0
  | S754_finite s m e =>
      let a := if 0 <=? e then Z.pos m * 2 ^ e else Z.pos m / 2 ^ (- e) in
      Some (if s then - a else a)
  | _ => None
  end.

(** [int(self.get_health() * 0.2)] *)
Definition second_wind_amount (health : Z) : option Z :=
  f ← float_of_int health;
  int_of_float (SFmul 53 1024 f point_two).

(** [Player.special_ability()]:
    [heal_amount = int(self.get_health() * 0.2);
     self._health = min(100, self._health + heal_amount)],
    and the message returned. *)
Definition Player_special_ability (c : Character) : option (Character * string) :=
  heal_amount ← second_wind_amount (get_health c);
  Some (with_health c (Z.min 100 (_health c + heal_amount)),
        name c +:+ " uses Second Wind and heals for " +:+ pretty heal_amount
        +:+ " HP!").

(** [HealerSidekick.special_ability(target)]:
    [heal_amount = 15; target.set_health(target.get_health() + heal_amount)],
    and the message returned. *)
Definition Healer_special_ability (w : World) (self target : ref)
    : option (World * string) :=
  s ← chars w !! self;
  t ← chars w !! target;
  let heal_amount := 15 in
  let w1 := update w target (set_health t (get_health t + heal_amount)) in
  s1 ← chars w1 !! self;
  t1 ← chars w1 !! target;
  Some (w1, name s1 +:+ " heals " +:+ name t1 +:+ " for " +:+ pretty heal_amount
            +:+ " HP!").

(** *** Sequences of calls *)

(** The sum of a list of amounts. *)
Definition sum_Z (l : list Z) : Z := fold_right Z.add 0 l.

(** [add_experience] called once for every amount of a list, in order. *)
Definition add_experiences (c : Character) (amounts : list Z) : Character :=
  fold_left add_experience amounts c.

(** [take_damage] called once for every amount of a list, in order. *)
Definition take_damages (c : Character) (amounts : list Z) : Character :=
  fold_left take_damage amounts c.

(** Every character of the world has non-negative health. *)
Definition all_healthy (w : World) : Prop :=
  forall r c, chars w !! r = Some c -> 0 <= _health c.

(** *** Checks and worlds for the abilities *)

(** The float computation of Second Wind gives [health // 5] for every
    health from 0 up to, and not including, the bound. *)
Definition second_wind_checked (bound : Z) : bool :=
  forallb (fun k => bool_decide (second_wind_amount (Z.of_nat k)
                                 = Some (Z.of_nat k / 5)))
    (seq 0 (Z.to_nat bound)).

(** A healer at reference 0 and a player with 95 health at 1. *)
Definition party : World :=
  mkWorld (<[0%nat := Character_init HealerSidekick "Mira" 40 3 None]>
             (<[1%nat := Player_init "Hero" 95 10]> ∅)) [].

End CharacterPy.

(* ===================================================================== *)
(** ** inventory.py *)
(* ===================================================================== *)

Module InventoryPy.

Inductive ItemType := ARMOR | WEAPON | CONSUMABLE | MISC.
Inductive ArmorType := HELMET | CHESTPLATE | LEGGINGS | BOOTS | CHARM.
Inductive WeaponType := BATTLE_AXE | SHORT_SWORD | BOW_AND_ARROW.

#[global] Instance ItemType_eq_dec : EqDecision ItemType.
Proof. solve_decision. Defined.
#[global] Instance ArmorType_eq_dec : EqDecision ArmorType.
Proof. solve_decision. Defined.
#[global] Instance WeaponType_eq_dec : EqDecision WeaponType.
Proof. solve_decision. Defined.

(** The fields of the dataclass [Item], which every subclass inherits. *)
Record ItemFields := mkItemFields {
  name : string;
  description : string;
  weight : Q;
  value : Z;
  item_type : ItemType;
  max_stack : Z;
  quantity : Z
}.

(** An object of class [Item] or of one of its three subclasses, with the
    fields the subclass adds.  [Armor] and [Weapon] declare the field
    [is_equipped].  [Item] and [Consumable] do not, but the assignment
    [x.is_equipped = b] of the equip and unequip methods works on any
    object: on an object of these two classes it creates an instance
    attribute, which is no dataclass field and so takes no part in [==].
    [extra_is_equipped] is that attribute, [None] as long as nothing has
    assigned it. *)
Inductive Item :=
  | PlainItem (f : ItemFields) (extra_is_equipped : option bool)
  | Armor (f : ItemFields) (armor_type : ArmorType) (defense durability : Z)
      (is_equipped : bool)
  | Weapon (f : ItemFields) (weapon_type : WeaponType) (damage durability : Z)
      (is_equipped : bool) (range : Z)
  | Consumable (f : ItemFields) (effect : string) (potency duration : Z)
      (extra_is_equipped : option bool).

Definition fields (it : Item) : ItemFields :=
  match it with
  | PlainItem f _ | Armor f _ _ _ _ | Weapon f _ _ _ _ _
  | Consumable f _ _ _ _ => f
  end.

(** [isinstance(it, Consumable)] *)
Definition is_Consumable (it : Item) : bool :=
  match it with Consumable _ _ _ _ _ => true | _ => false end.


(** [it.quantity = q] *)
Definition set_quantity (it : Item) (q : Z) : Item :=
  let upd f := mkItemFields (name f) (description f) (weight f) (value f)
                 (item_type f) (max_stack f) q in
  match it with
  | PlainItem f x => PlainItem (upd f) x
  | Armor f t d du e => Armor (upd f) t d du e
  | Weapon f t d du e r => Weapon (upd f) t d du e r
  | Consumable f e p d x => Consumable (upd f) e p d x
  end.

(** [it.is_equipped = b]: the field of an [Armor] or a [Weapon], the
    instance attribute of an object of another class. *)
Definition set_is_equipped (it : Item) (b : bool) : Item :=
  match it with
  | PlainItem f _ => PlainItem f (Some b)
  | Armor f t d du _ => Armor f t d du b
  | Weapon f t d du _ r => Weapon f t d du b r
  | Consumable f e p d _ => Consumable f e p d (Some b)
  end.

(** The [__eq__] a dataclass generates: the two objects have the same
    class and their field tuples are equal.  An attribute that is not a
    field is not compared. *)
Definition fields_eqb (f g : ItemFields) : bool :=
  bool_decide (name f = name g) && bool_decide (description f = description g)
  && Qeq_bool (weight f) (weight g) && bool_decide (value f = value g)
  && bool_decide (item_type f = item_type g)
  && bool_decide (max_stack f = max_stack g)
  && bool_decide (quantity f = quantity g).

Definition item_eqb (a b : Item) : bool :=
  match a, b with
  | PlainItem f _, PlainItem g _ => fields_eqb f g
  | Armor f t d du e, Armor g t' d' du' e' =>
      fields_eqb f g && bool_decide (t = t') && bool_decide (d = d')
      && bool_decide (du = du') && bool_decide (e = e')
  | Weapon f t d du e r, Weapon g t' d' du' e' r' =>
      fields_eqb f g && bool_decide (t = t') && bool_decide (d = d')
      && bool_decide (du = du') && bool_decide (e = e') && bool_decide (r = r')
  | Consumable f e p d _, Consumable g e' p' d' _ =>
      fields_eqb f g && bool_decide (e = e') && bool_decide (p = p')
      && bool_decide (d = d')
  | _, _ => false
  end.

(** Items are mutated in place ([quantity], [is_equipped]) and the
    inventory keeps the very objects it is handed, so items live in a heap
    and the inventory holds references. *)
Definition ref := nat.

(** [Inventory.__init__]: [equipped_armor] is a dict with one entry for
    every [ArmorType]. *)
Record Inventory := mkInventory {
  items : list ref;
  equipped_armor : ArmorType -> option ref;
  equipped_weapon : option ref;
  current_weight : Q
}.

Record State := mkState {
  heap : gmap ref Item;
  inv : Inventory
}.

Definition MAX_WEIGHT : Q := 100 # 1.
Definition MAX_CONSUMABLES : nat := 3.

Definition Inventory_init : Inventory :=
  mkInventory [] (fun _ => None) None (0 # 1).

(** [item.weight * item.quantity] *)
Definition stack_weight (it : Item) : Q :=
  (weight (fields it) * inject_Z (quantity (fields it)))%Q.

(** The test of the stacking loop on one entry:
    [isinstance(existing, Consumable) and existing.name == item.name
     and existing.quantity < existing.max_stack] *)
Definition can_stack (h : gmap ref Item) (name_ : string) (r : ref) : bool :=
  match h !! r with
  | Some ex =>
      is_Consumable ex && bool_decide (name (fields ex) = name_)
      && (quantity (fields ex) <? max_stack (fields ex))
  | None => false
  end.

(** The first index, and the entry there, that passes a test: the
    position a [for] loop over the list stops at. *)
Fixpoint find_from (p : ref -> bool) (i : nat) (l : list ref) : option (nat * ref) :=
  match l with
  | [] => None
  | r :: l' => if p r then Some (i, r) else find_from p (S i) l'
  end.

Definition find_first (p : ref -> bool) (l : list ref) : option (nat * ref) :=
  find_from p 0 l.

(** [i.item_type == ItemType.CONSUMABLE] on an entry. *)
Definition is_consumable_typed (h : gmap ref Item) (r : ref) : bool :=
  match h !! r with
  | Some it => bool_decide (item_type (fields it) = CONSUMABLE)
  | None => false
  end.

(** [len([i for i in self.items if i.item_type == ItemType.CONSUMABLE])] *)
Definition consumable_count (st : State) : nat :=
  length (filter (fun r => is_consumable_typed (heap st) r = true) (items (inv st))).

(** [self.items.append(item); self.current_weight += item.weight * item.quantity] *)
Definition append_item (st : State) (item : ref) (it : Item) : State :=
  let i := inv st in
  mkState (heap st)
    (mkInventory (items i ++ [item]) (equipped_armor i) (equipped_weapon i)
       (current_weight i + stack_weight it)%Q).

(** [add_item(item)].  In the stacking branch the weight is charged from
    [item] as it is after [existing.quantity] has been assigned, which
    matters when [existing] and [item] are the same object. *)
Definition add_item (st : State) (item : ref) : option (bool * State) :=
  it ← heap st !! item;
  let i := inv st in
  if negb (Qle_bool (current_weight i + stack_weight it) MAX_WEIGHT) then
    Some (false, st)
  else if bool_decide (item_type (fields it) = CONSUMABLE) then
    match find_first (can_stack (heap st) (name (fields it))) (items i) with
    | Some (_, existing) =>
        ex ← heap st !! existing;
        let h1 := <[existing := set_quantity ex
                      (quantity (fields ex) + quantity (fields it))]> (heap st) in
        it1 ← h1 !! item;
        Some (true,
              mkState h1
                (mkInventory (items i) (equipped_armor i) (equipped_weapon i)
                   (current_weight i + stack_weight it1)%Q))
    | None =>
        if bool_decide (MAX_CONSUMABLES <= consumable_count st)%nat then
          Some (false, st)
        else Some (true, append_item st item it)
    end
  else Some (true, append_item st item it).

(** [inv_item == item] on an entry of the list. *)
Definition equals (h : gmap ref Item) (it : Item) (r : ref) : bool :=
  match h !! r with
  | Some inv_item => item_eqb inv_item it
  | None => false
  end.

(** [remove_item(item, quantity=1)] *)
Definition remove_item (st : State) (item : ref) (quantity_ : Z)
    : option (bool * State) :=
  it ← heap st !! item;
  let i := inv st in
  match find_first (equals (heap st) it) (items i) with
  | Some (idx, r) =>
      inv_item ← heap st !! r;
      if quantity_ <? quantity (fields inv_item) then
        let h1 := <[r := set_quantity inv_item
                      (quantity (fields inv_item) - quantity_)]> (heap st) in
        it1 ← h1 !! item;
        Some (true,
              mkState h1
                (mkInventory (items i) (equipped_armor i) (equipped_weapon i)
                   (current_weight i - weight (fields it1) * inject_Z quantity_)%Q))
      else
        Some (true,
              mkState (heap st)
                (mkInventory (delete idx (items i)) (equipped_armor i)
                   (equipped_weapon i)
                   (current_weight i
                    - weight (fields it) * inject_Z (quantity (fields inv_item)))%Q))
  | None => Some (false, st)
  end.

(** [x in self.items]: some entry is the object itself or equals it. *)
Definition contains (st : State) (x : ref) (it : Item) : bool :=
  existsb (fun r => bool_decide (r = x) || equals (heap st) it r) (items (inv st)).

(** [self.equipped_armor[t] = v] *)
Definition set_slot (slots : ArmorType -> option ref) (t : ArmorType)
    (v : option ref) : ArmorType -> option ref :=
  fun t' => if decide (t' = t) then v else slots t'.

(** [unequip_armor(armor_type)] *)
Definition unequip_armor (st : State) (t : ArmorType) : option (bool * State) :=
  let i := inv st in
  match equipped_armor i t with
  | None => Some (false, st)
  | Some r =>
      a ← heap st !! r;
      Some (true,
            mkState (<[r := set_is_equipped a false]> (heap st))
              (mkInventory (items i) (set_slot (equipped_armor i) t None)
                 (equipped_weapon i) (current_weight i)))
  end.

(** [equip_armor(armor)]; reading [armor.armor_type] raises an
    [AttributeError] (here [None]) on an object that is no [Armor]. *)
Definition equip_armor (st : State) (armor : ref) : option (bool * State) :=
  a ← heap st !! armor;
  if negb (contains st armor a) then Some (false, st)
  else
    match a with
    | Armor _ t _ _ _ =>
        '(_, st1) ← match equipped_armor (inv st) t with
                    | Some _ => unequip_armor st t
                    | None => Some (false, st)
                    end;
        a1 ← heap st1 !! armor;
        let i := inv st1 in
        Some (true,
              mkState (<[armor := set_is_equipped a1 true]> (heap st1))
                (mkInventory (items i) (set_slot (equipped_armor i) t (Some armor))
                   (equipped_weapon i) (current_weight i)))
    | _ => None
    end.

(** [unequip_weapon()] *)
Definition unequip_weapon (st : State) : option (bool * State) :=
  let i := inv st in
  match equipped_weapon i with
  | None => Some (false, st)
  | Some r =>
      w ← heap st !! r;
      Some (true,
            mkState (<[r := set_is_equipped w false]> (heap st))
              (mkInventory (items i) (equipped_armor i) None (current_weight i)))
  end.

(** [equip_weapon(weapon)]; nothing in it reads an attribute that only a
    [Weapon] has, so it takes an object of any class. *)
Definition equip_weapon (st : State) (weapon : ref) : option (bool * State) :=
  w ← heap st !! weapon;
  if negb (contains st weapon w) then Some (false, st)
  else
    '(_, st1) ← match equipped_weapon (inv st) with
                | Some _ => unequip_weapon st
                | None => Some (false, st)
                end;
    w1 ← heap st1 !! weapon;
    let i := inv st1 in
    Some (true,
          mkState (<[weapon := set_is_equipped w1 true]> (heap st1))
            (mkInventory (items i) (equipped_armor i) (Some weapon)
               (current_weight i))).

(** [use_consumable(consumable)]; the message it prints reads
    [consumable.effect], which raises an [AttributeError] (here [None]) on
    an object that is no [Consumable]. *)
Definition use_consumable (st : State) (consumable : ref) : option (bool * State) :=
  c ← heap st !! consumable;
  if negb (contains st consumable c) then Some (false, st)
  else if is_Consumable c then remove_item st consumable 1
  else None.

(** [get_total_weight()]: [sum(item.weight * item.quantity for item in self.items)] *)
Definition get_total_weight (st : State) : Q :=
  foldr (fun r acc => (match heap st !! r with
                       | Some it => stack_weight it
                       | None => 0
                       end + acc)%Q) (0 # 1)%Q (items (inv st)).

(** *** Sequences of calls *)

Inductive Op :=
  | AddItem (item : ref)
  | RemoveItem (item : ref) (quantity_ : Z)
  | EquipArmor (armor : ref)
  | EquipWeapon (weapon : ref)
  | UnequipArmor (t : ArmorType)
  | UnequipWeapon
  | UseConsumable (consumable : ref).

Definition call (st : State) (o : Op) : option (bool * State) :=
  match o with
  | AddItem r => add_item st r
  | RemoveItem r q => remove_item st r q
  | EquipArmor r => equip_armor st r
  | EquipWeapon r => equip_weapon st r
  | UnequipArmor t => unequip_armor st t
  | UnequipWeapon => unequip_weapon st
  | UseConsumable r => use_consumable st r
  end.

(** The calls one after the other, the returned booleans dropped. *)
Fixpoint run (st : State) (ops : list Op) : option State :=
  match ops with
  | [] => Some st
  | o :: ops' => '(_, st') ← call st o; run st' ops'
  end.

(** *** The contract of the equip slots *)

(** Every reference held by an equip slot is an entry of [items]. *)
Definition slots_in_items (st : State) : Prop :=
  (forall t r, equipped_armor (inv st) t = Some r -> r ∈ items (inv st))
  /\ (forall r, equipped_weapon (inv st) = Some r -> r ∈ items (inv st)).

Definition all_armor_types : list ArmorType :=
  [HELMET; CHESTPLATE; LEGGINGS; BOOTS; CHARM].

(** Some equip slot holds the reference. *)
Definition is_equipped_ref (st : State) (r : ref) : bool :=
  existsb (fun t => bool_decide (equipped_armor (inv st) t = Some r))
    all_armor_types
  || bool_decide (equipped_weapon (inv st) = Some r).

(** The position and the entry that [remove_item(item, quantity_)] pops
    from the list, if it pops one: the first entry equal to [item], when
    it holds no more than [quantity_] units. *)
Definition dropped_entry (st : State) (item : ref) (quantity_ : Z)
    : option (nat * ref) :=
  it ← heap st !! item;
  '(idx, r) ← find_first (equals (heap st) it) (items (inv st));
  inv_item ← heap st !! r;
  if quantity_ <? quantity (fields inv_item) then None else Some (idx, r).

(** The removal does not take the last entry of an equipped object: the
    entry it pops, if any, is held by no equip slot, or the same object is
    an entry at another position as well. *)
Definition keeps_equipped (st : State) (item : ref) (quantity_ : Z) : bool :=
  match dropped_entry st item quantity_ with
  | Some (idx, r) =>
      negb (is_equipped_ref st r)
      || bool_decide (r ∈ delete idx (items (inv st)))
  | None => true
  end.

(** The object is an equal copy of a held one: it is not itself an entry
    of the list, and some entry equals it. *)
Definition equal_copy (st : State) (x : ref) : bool :=
  negb (bool_decide (x ∈ items (inv st)))
  && match heap st !! x with
     | Some it => existsb (equals (heap st) it) (items (inv st))
     | None => false
     end.

(** The contract of a call: the object to equip is no equal copy of a held
    one, and a removal does not take the last entry of an equipped
    object. *)
Definition respects_contract (st : State) (o : Op) : bool :=
  match o with
  | EquipArmor r | EquipWeapon r => negb (equal_copy st r)
  | RemoveItem r q => keeps_equipped st r q
  | UseConsumable r => keeps_equipped st r 1
  | _ => true
  end.

Fixpoint follows_contract (st : State) (ops : list Op) : bool :=
  match ops with
  | [] => true
  | o :: ops' =>
      respects_contract st o
      && match call st o with
         | Some (_, st') => follows_contract st' ops'
         | None => true
         end
  end.

(** *** Objects and states used in the examples *)

(** A consumable with [max_stack] 5, in the manner of
    [GameItems.HEALTH_POTION]. *)
Definition potion (name_ : string) (weight_ : Q) (quantity_ : Z) : Item :=
  Consumable (mkItemFields name_ "A potion." weight_ 25 CONSUMABLE 5 quantity_)
    "restore_health" 30 0 None.

(** A helmet, in the manner of [GameItems.LEATHER_HELMET]. *)
Definition helmet (is_equipped : bool) : Item :=
  Armor (mkItemFields "Leather Helmet" "Basic head protection." (1 # 2) 15
           ARMOR 1 1) HELMET 2 100 is_equipped.

(** One potion object of weight 40, and an empty inventory. *)
Definition one_potion : State :=
  mkState (<[0%nat := potion "Health Potion" (40 # 1) 1]> ∅) Inventory_init.

(** Two potion objects of the same name, 4 and 3 units, both within the
    bound of 5. *)
Definition two_potions : State :=
  mkState (<[0%nat := potion "Health Potion" (1 # 1) 4]>
             (<[1%nat := potion "Health Potion" (1 # 1) 3]> ∅))
    Inventory_init.

(** A sword, in the manner of [GameItems.RUSTY_SWORD], held and not
    equipped. *)
Definition sword (is_equipped : bool) : Item :=
  Weapon (mkItemFields "Rusty Sword" "An old, worn-out sword." (5 # 2) 20
            WEAPON 1 1) SHORT_SWORD 5 100 is_equipped 1.

Definition sword_held : State :=
  mkState (<[0%nat := sword false]> ∅)
    (mkInventory [0%nat] (fun _ => None) None (5 # 2)).

(** Two helmets are held; the first one is worn. *)
Definition two_helmets : State :=
  mkState (<[0%nat := helmet true]> (<[1%nat := helmet false]> ∅))
    (mkInventory [0%nat; 1%nat]
       (fun t => match t with HELMET => Some 0%nat | _ => None end)
       None (1 # 1)).

(** Three potions of three names are held; a fourth name is at 3. *)
Definition three_potions : State :=
  mkState (<[0%nat := potion "Health Potion" (1 # 1) 1]>
             (<[1%nat := potion "Stamina Elixir" (1 # 1) 1]>
                (<[2%nat := potion "Mana Potion" (1 # 1) 1]>
                   (<[3%nat := potion "Antidote" (1 # 1) 1]> ∅))))
    (mkInventory [0%nat; 1%nat; 2%nat] (fun _ => None) None (3 # 1)).

(** A helmet object at reference 0, and an empty inventory. *)
Definition one_helmet : State :=
  mkState (<[0%nat := helmet false]> ∅) Inventory_init.

(** A helmet at reference 0 and two potions in one object at reference 1. *)
Definition helmet_and_potions : State :=
  mkState (<[0%nat := helmet false]>
             (<[1%nat := potion "Health Potion" (1 # 1) 2]> ∅))
    Inventory_init.

(** A chestplate, in the manner of [GameItems.IRON_CHESTPLATE]. *)
Definition chestplate (is_equipped : bool) : Item :=
  Armor (mkItemFields "Iron Chestplate" "Sturdy chest protection." (8 # 1) 100
           ARMOR 1 1) CHESTPLATE 8 100 is_equipped.

(** A helmet at reference 0, two potions in one object at 1, a sword at 2
    and a chestplate at 3; the inventory is empty. *)
Definition adventurer_kit : State :=
  mkState (<[0%nat := helmet false]>
             (<[1%nat := potion "Health Potion" (1 # 1) 2]>
                (<[2%nat := sword false]>
                   (<[3%nat := chestplate false]> ∅))))
    Inventory_init.


(** The held object a call is about; [add_item] is handed a new one and
    the unequip calls name a slot. *)
Definition target (o : Op) : option ref :=
  match o with
  | RemoveItem r _ | EquipArmor r | EquipWeapon r | UseConsumable r => Some r
  | AddItem _ | UnequipArmor _ | UnequipWeapon => None
  end.



(** An object with the two attributes that the inventory assigns,
    [quantity] and [is_equipped], blanked: what is left is what no
    operation of the inventory writes. *)
Definition frozen (it : Item) : Item :=
  match set_quantity it 0 with
  | PlainItem f _ => PlainItem f None
  | Armor f t d du _ => Armor f t d du false
  | Weapon f t d du _ r => Weapon f t d du false r
  | Consumable f e p d _ => Consumable f e p d None
  end.

(** *** Queries *)

(** [item.item_type == item_type] on an entry. *)
Definition has_item_type (h : gmap ref Item) (t : ItemType) (r : ref) : bool :=
  match h !! r with
  | Some it => bool_decide (item_type (fields it) = t)
  | None => false
  end.

(** [get_inventory_by_type(item_type)]:
    [[item for item in self.items if item.item_type == item_type]] *)
Definition get_inventory_by_type (st : State) (t : ItemType) : list ref :=
  List.filter (has_item_type (heap st) t) (items (inv st)).

(** [at.value] for the members of [ArmorType]. *)
Definition ArmorType_value (t : ArmorType) : string :=
  match t with
  | HELMET => "Helmet"
  | CHESTPLATE => "Chestplate"
  | LEGGINGS => "Leggings"
  | BOOTS => "Boots"
  | CHARM => "Armor Charm"
  end.

(** [get_equipped_items()]: the dict
    [{'weapon': self.equipped_weapon,
      **{at.value: armor for at, armor in self.equipped_armor.items() if armor}}]. *)
Definition get_equipped_items (st : State) : gmap string (option ref) :=
  fold_left
    (fun d t =>
       match equipped_armor (inv st) t with
       | Some armor => <[ArmorType_value t := Some armor]> d
       | None => d
       end)
    all_armor_types
    (<["weapon" := equipped_weapon (inv st)]> ∅).

(** *** Contracts for the flags and the entries *)

(** The occupant of every armor slot is an [Armor] of the slot's type with
    the flag set, and the occupant of the weapon slot is a [Weapon] with
    the flag set. *)
Definition slots_flagged (st : State) : Prop :=
  (forall t r, equipped_armor (inv st) t = Some r ->
     exists f d du, heap st !! r = Some (Armor f t d du true))
  /\ (forall r, equipped_weapon (inv st) = Some r ->
        exists f wt d du rg, heap st !! r = Some (Weapon f wt d du true rg)).

(** [isinstance(it, Weapon)] for the object behind a reference. *)
Definition is_Weapon_ref (h : gmap ref Item) (r : ref) : bool :=
  match h !! r with
  | Some (Weapon _ _ _ _ _ _) => true
  | _ => false
  end.

(** The calls respect the annotation of [equip_weapon]: it is handed a
    [Weapon]. *)
Fixpoint weapons_typed (st : State) (ops : list Op) : bool :=
  match ops with
  | [] => true
  | o :: ops' =>
      match o with
      | EquipWeapon r => is_Weapon_ref (heap st) r
      | _ => true
      end
      && match call st o with
         | Some (_, st') => weapons_typed st' ops'
         | None => true
         end
  end.

(** The heap after a call that only assigns a quantity. *)
Definition quantity_step (h h' : gmap ref Item) : Prop :=
  h' = h \/ exists r x q, h !! r = Some x /\ h' = <[r := set_quantity x q]> h.

(** [add_item] is handed an object that is not yet an entry of the
    list. *)
Fixpoint adds_new (st : State) (ops : list Op) : bool :=
  match ops with
  | [] => true
  | o :: ops' =>
      match o with
      | AddItem item => bool_decide (item ∉ items (inv st))
      | _ => true
      end
      && match call st o with
         | Some (_, st') => adds_new st' ops'
         | None => true
         end
  end.

End InventoryPy.

(* ===================================================================== *)
(** ** game.py *)
(* ===================================================================== *)

Module GamePy.
Import CharacterPy.

(** The attributes of [Game] that [handle_victory] reads or writes: the
    player, the roster of bosses still to defeat, and the characters.
    What the method prints is not modelled. *)
Record Game := mkGame {
  player : ref;
  bosses : list ref;
  world : World
}.

(** [l.remove(x)]: drops the first entry that is [x]; a [ValueError]
    (here [None]) when there is none.  [Character] defines no [__eq__], so
    two characters are equal when they are the same object. *)
Fixpoint list_remove (x : ref) (l : list ref) : option (list ref) :=
  match l with
  | [] => None
  | y :: l' => if bool_decide (y = x) then Some l'
               else (y ::.) <$> list_remove x l'
  end.

(** [handle_victory(enemy)]:
    [xp_reward = 20 if not isinstance(enemy, Boss) else 100;
     self.player.add_experience(xp_reward);
     if self.player.experience >= self.player.level * 100:
         self.player.level_up();
     if isinstance(enemy, Boss): self.bosses.remove(enemy)] *)
Definition handle_victory (g : Game) (enemy : ref) : option Game :=
  e ← chars (world g) !! enemy;
  let xp_reward := if bool_decide (cls e = Boss) then 100 else 20 in
  p ← chars (world g) !! player g;
  let w1 := update (world g) (player g) (add_experience p xp_reward) in
  p1 ← chars w1 !! player g;
  let w2 := if level p1 * 100 <=? experience p1
            then update w1 (player g) (level_up p1 1) else w1 in
  e2 ← chars w2 !! enemy;
  if bool_decide (cls e2 = Boss) then
    bosses' ← list_remove enemy (bosses g);
    Some (mkGame (player g) bosses' w2)
  else Some (mkGame (player g) (bosses g) w2).

(** *** Games used in the examples *)

(** The hero with 90 experience at reference 0 and a goblin at 1. *)
Definition after_goblin_fight : Game :=
  mkGame 0%nat []
    (mkWorld (<[0%nat := with_experience (Player_init "Hero" 100 10) 90]>
                (<[1%nat := with_health Goblin_init 0]> ∅)) []).

(** The hero at reference 0, two bosses at 1 and 2, both on the roster. *)
Definition after_boss_fight : Game :=
  mkGame 0%nat [1%nat; 2%nat]
    (mkWorld (<[0%nat := Player_init "Hero" 100 10]>
                (<[1%nat := Boss_init "Goblin King" 150 15]>
                   (<[2%nat := with_health (Boss_init "Dark Sorcerer" 200 12) 0]> ∅)))
       []).

End GamePy.

(* ===================================================================== *)
(** ** Properties of the weapon matchups *)
(* ===================================================================== *)

Module WeaponFacts.
Import WeaponPy.

(** The branch taken depends on the two classes only. *)
Lemma use_branch_resolve (self : Weapon) (target : Target) :
  use_branch self target = resolve (cls self) (cls <$> target_weapon target).
Proof.
  unfold resolve, use_branch, Rock_branch, Paper_branch, Scissors_branch,
    Lizard_branch, Spock_branch, isinstance.
  destruct self as [k n d], target as [tn [[k' n' d']|]]; simpl; reflexivity.
Qed.

Lemma resolve_table (a : WeaponClass) (b : option WeaponClass) :
  resolve a b = table_verdict a b.
Proof. destruct a, b as [[]|]; reflexivity. Qed.

Example Rock_use_on_Scissors :
  use Rock_init (mkTarget (Some "Orc") (Some Scissors_init))
  = "Rock crushes Scissors! Critical hit!".
Proof. reflexivity. Qed.

Example Spock_use_unarmed :
  use Spock_init (mkTarget None None) = "Used Spock on the target!".
Proof. reflexivity. Qed.

(** C6.  For every pair of an attacking weapon kind and an opposing kind or
    no weapon, the resolver yields exactly one verdict; the branch a [use]
    method takes is the verdict of the fixed table on the two classes; no
    opposing weapon resolves Neutral, and so does every pair the table
    lists neither as a win nor as a loss; and whenever the table says that
    A beats B, the resolver says so and does not say that B beats A. *)
Theorem resolve_total_table_antisymmetric :
  (forall a b, exists v, resolve a b = v /\ forall v', resolve a b = v' -> v' = v)
  /\ (forall self target,
        use_branch self target
        = table_verdict (cls self) (cls <$> target_weapon target))
  /\ (forall a, resolve a None = Neutral)
  /\ (forall a b, table_beats a b = false -> table_loses_to a b = false ->
        resolve a (Some b) = Neutral)
  /\ (forall a b, table_beats a b = true ->
        resolve a (Some b) = CriticalAdvantage
        /\ resolve b (Some a) <> CriticalAdvantage).
Proof.
  split; [|split; [|split; [|split]]].
  - intros a b. exists (resolve a b). split; [reflexivity | congruence].
  - intros self target. rewrite use_branch_resolve. apply resolve_table.
  - intros a. rewrite resolve_table. reflexivity.
  - intros a b Hb Hl. rewrite resolve_table. simpl. rewrite Hb, Hl. reflexivity.
  - intros a b Hb. rewrite !resolve_table. simpl. rewrite Hb.
    split; [reflexivity|].
    destruct a, b; simpl in *; congruence.
Qed.

End WeaponFacts.

(* ===================================================================== *)
(** ** Properties of characters *)
(* ===================================================================== *)

Module CharacterFacts.
Import CharacterPy.

(** *** Health *)

Lemma set_health_max (c : Character) (h : Z) :
  set_health c h = with_health c (Z.max 0 h).
Proof.
  unfold set_health. destruct (Z.ltb_spec h 0) as [Hlt|Hge]; f_equal; lia.
Qed.

(** C4.  For every character and every amount, [take_damage] sets the
    health to [max(0, health - amount)], which is never negative and is 0
    for every amount greater than the health; the clamping setter gives
    the same result, and no other attribute changes. *)
Theorem take_damage_never_negative (c : Character) (amount : Z) :
  _health (take_damage c amount) = Z.max 0 (_health c - amount)
  /\ 0 <= _health (take_damage c amount)
  /\ (_health c < amount -> _health (take_damage c amount) = 0)
  /\ set_health c (get_health c - amount) = take_damage c amount
  /\ take_damage c amount = with_health c (_health (take_damage c amount)).
Proof.
  split; [reflexivity|]. split; [simpl; lia|]. split; [simpl; lia|].
  split; [apply set_health_max | reflexivity].
Qed.

(** *** Experience *)

(** What one call does to the level: it adds the whole quotient of the
    new total by 100, whatever the level already is. *)
Lemma add_experience_level (c : Character) (amount : Z) :
  experience (add_experience c amount) = experience c + amount
  /\ level (add_experience c amount)
     = level c + Z.max 0 ((experience c + amount) / 100).
Proof.
  unfold add_experience. simpl.
  destruct (Z.ltb_spec 0 ((experience c + amount) / 100)); simpl; lia.
Qed.

(** C1.  A new character that gains 250 experience in one call rises from
    level 1 to level 3, by one [level_up(2)].  A further gain of 10 brings
    the total to 260, short of the next threshold 3 * 100, and yet the
    call grants two more levels: the quotient 260 // 100 counts the
    thresholds 100 and 200 a second time. *)
Theorem add_experience_regrants_levels :
  let c0 := Player_init "Hero" 100 10 in
  let c1 := add_experience c0 250 in
  let c2 := add_experience c1 10 in
  c1 = level_up (with_experience c0 250) 2
  /\ level c1 = 3 /\ experience c1 = 250
  /\ experience c2 = 260 /\ experience c2 < level c1 * 100
  /\ level c2 = 5.
Proof. cbv zeta. repeat split; vm_compute; reflexivity. Qed.

(** *** Attacks *)

Lemma critical_true (roll : Q) : (roll < 2 # 10)%Q -> critical roll = true.
Proof.
  intros Hlt. unfold critical.
  destruct (Qle_bool (2 # 10) roll) eqn:Hle; [|reflexivity].
  apply Qle_bool_iff in Hle. exfalso. exact (Qlt_not_le _ _ Hlt Hle).
Qed.

Lemma chars_log_combat (logger : bool) (w : World) (e : LogEntry) :
  chars (log_combat logger w e) = chars w.
Proof. destruct logger; reflexivity. Qed.

(** The base attack, step by step. *)
Lemma Character_attack_eq (w : World) (self enemy : ref) (s e : Character)
    (logger : bool) :
  chars w !! self = Some s -> chars w !! enemy = Some e ->
  Character_attack w self enemy logger
  = Some (log_combat logger
            (update w enemy (with_health e (Z.max 0 (_health e - total_damage s))))
            (mkLogEntry self enemy (total_damage s) ""),
          total_damage s).
Proof.
  intros Hs He. unfold Character_attack. rewrite Hs. simpl. rewrite He. simpl.
  unfold get_health. rewrite set_health_max. reflexivity.
Qed.

(** Only [Boss] overrides [attack]. *)
Lemma attack_dispatch (w : World) (self enemy : ref) (s : Character)
    (logger : bool) (roll : Q) :
  chars w !! self = Some s ->
  attack w self enemy logger roll
  = if bool_decide (cls s = Boss) then Boss_attack w self enemy logger roll
    else Character_attack w self enemy logger.
Proof.
  intros Hs. unfold attack. rewrite Hs. simpl. destruct (cls s); reflexivity.
Qed.

(** A goblin that is down to 10 health loses 10, not the 15 dealt. *)
Lemma attack_stops_at_zero :
  exists w' d,
    Character_attack (duel 10) 0%nat 1%nat false = Some (w', d)
    /\ d = 15
    /\ health_of (duel 10) 1%nat = Some 10
    /\ health_of w' 1%nat = Some 0
    /\ health_of w' 1%nat <> Some (10 - d).
Proof.
  eexists _, _. split; [vm_compute; reflexivity|].
  split; [reflexivity|]. split; [reflexivity|]. split; [reflexivity|].
  vm_compute. discriminate.
Qed.

(** A character that attacks itself is the target, and is mutated. *)
Lemma attack_self_mutates :
  exists w' d,
    Character_attack (duel 30) 0%nat 0%nat false = Some (w', d)
    /\ chars (duel 30) !! 0%nat = Some hero
    /\ chars w' !! 0%nat = Some (with_health hero 85).
Proof. eexists _, _. repeat split; vm_compute; reflexivity. Qed.

(** C5, amended.  [Character.attack] returns the base damage plus the bonus
    of the equipped weapon (0 without one) and sets the target's health to
    [max(0, health - damage)]: the health drops by the damage whenever it
    is at least the damage.  An attacker that is not itself the target is
    left as it was, and so is every other character. *)
Theorem Character_attack_spec (w : World) (self enemy : ref) (s e : Character)
    (logger : bool) :
  chars w !! self = Some s -> chars w !! enemy = Some e ->
  exists w',
    Character_attack w self enemy logger = Some (w', total_damage s)
    /\ total_damage s
       = damage s + from_option WeaponPy.damage_bonus 0 (weapon s)
    /\ health_of w' enemy = Some (Z.max 0 (_health e - total_damage s))
    /\ (total_damage s <= _health e ->
        health_of w' enemy = Some (_health e - total_damage s))
    /\ (self <> enemy -> chars w' !! self = Some s)
    /\ (forall r, r <> enemy -> chars w' !! r = chars w !! r).
Proof.
  intros Hs He. eexists. split; [apply Character_attack_eq; eassumption|].
  split; [unfold total_damage; destruct (weapon s); reflexivity|].
  unfold health_of. rewrite !chars_log_combat. simpl.
  rewrite lookup_insert_eq. simpl.
  split; [reflexivity|]. split; [intros Hle; f_equal; lia|].
  split.
  - intros Hne. rewrite lookup_insert_ne by congruence. exact Hs.
  - intros r Hne. rewrite lookup_insert_ne by congruence. reflexivity.
Qed.

(** The scenario of C5: the hero deals 15 and the goblin is left at 15. *)
Lemma Character_attack_spec_witness :
  exists w',
    Character_attack (duel 30) 0%nat 1%nat false = Some (w', 15)
    /\ health_of w' 1%nat = Some 15
    /\ chars w' !! 0%nat = Some hero.
Proof.
  destruct (Character_attack_spec (duel 30) 0%nat 1%nat hero Goblin_init false
              eq_refl eq_refl) as (w' & Hrun & _ & _ & Hh & Hself & _).
  exists w'. split; [exact Hrun|]. split.
  - apply Hh. vm_compute. discriminate.
  - apply Hself. discriminate.
Defined.

Lemma Boss_attack_eq (w : World) (self enemy : ref) (s e : Character)
    (logger : bool) (roll : Q) :
  chars w !! self = Some s -> chars w !! enemy = Some e ->
  Boss_attack w self enemy logger roll
  = if critical roll
    then Some (after_critical w self enemy s e logger,
               total_damage s + total_damage s)
    else Character_attack w self enemy logger.
Proof.
  intros Hs He. unfold Boss_attack.
  rewrite (Character_attack_eq w self enemy s e logger Hs He). simpl.
  destruct (critical roll); [|reflexivity].
  rewrite chars_log_combat. simpl. rewrite lookup_insert_eq. reflexivity.
Qed.

Lemma after_critical_lookup (w : World) (self enemy : ref) (s e : Character)
    (logger : bool) (r : ref) :
  chars (after_critical w self enemy s e logger) !! r
  = if decide (enemy = r)
    then Some (with_health e
                 (Z.max 0 (Z.max 0 (_health e - total_damage s) - total_damage s)))
    else chars w !! r.
Proof.
  unfold after_critical. rewrite chars_log_combat. simpl.
  rewrite lookup_insert. destruct (decide (enemy = r)) as [->|Hne].
  - reflexivity.
  - rewrite chars_log_combat. simpl. apply lookup_insert_ne. exact Hne.
Qed.

(** C9.  When the roll is below 0.2, [Boss.attack] first makes the base
    attack, then applies the same amount to the same target once more with
    [take_damage], and returns the sum of the two. *)
Theorem Boss_attack_critical (w : World) (self enemy : ref) (s e : Character)
    (logger : bool) (roll : Q) :
  chars w !! self = Some s -> chars w !! enemy = Some e ->
  (roll < 2 # 10)%Q ->
  let d := total_damage s in
  exists w1 e1 w',
    Character_attack w self enemy logger = Some (w1, d)
    /\ chars w1 !! enemy = Some e1
    /\ chars w' !! enemy = Some (take_damage e1 d)
    /\ Boss_attack w self enemy logger roll = Some (w', d + d)
    /\ health_of w' enemy = Some (Z.max 0 (Z.max 0 (_health e - d) - d))
    /\ (forall r, r <> enemy -> chars w' !! r = chars w !! r).
Proof.
  intros Hs He Hroll d.
  pose proof (Character_attack_eq w self enemy s e logger Hs He) as Hbase.
  pose proof (Boss_attack_eq w self enemy s e logger roll Hs He) as Hrun.
  rewrite (critical_true roll Hroll) in Hrun. fold d in Hbase, Hrun.
  eexists _, _, (after_critical w self enemy s e logger).
  split; [exact Hbase|].
  split; [rewrite chars_log_combat; simpl; apply lookup_insert_eq|].
  split; [rewrite after_critical_lookup, decide_True by reflexivity; reflexivity|].
  split; [exact Hrun|].
  unfold health_of. split.
  - rewrite after_critical_lookup, decide_True by reflexivity. reflexivity.
  - intros r Hne. rewrite after_critical_lookup, decide_False by congruence.
    reflexivity.
Qed.

(** The scenario of C9: with the roll at 0 the 50-damage attack returns 100. *)
Lemma Boss_attack_critical_witness :
  exists w',
    attack boss_fight 0%nat 1%nat false (0 # 1) = Some (w', 100)
    /\ health_of w' 1%nat = Some 0.
Proof.
  destruct (Boss_attack_critical boss_fight 0%nat 1%nat
              (Boss_init "Dragon Lord" 300 50) (Player_init "Hero" 100 10)
              false (0 # 1) eq_refl eq_refl eq_refl)
    as (w1 & e1 & w' & _ & _ & _ & Hrun & Hh & _).
  exists w'. split; [|exact Hh].
  rewrite (attack_dispatch boss_fight 0%nat 1%nat
             (Boss_init "Dragon Lord" 300 50) false (0 # 1) eq_refl).
  exact Hrun.
Defined.

(** The roll is below 0.2 exactly when [critical] says so. *)
Lemma critical_iff (roll : Q) : critical roll = true <-> (roll < 2 # 10)%Q.
Proof.
  split; [|apply critical_true].
  unfold critical. intros Hc. apply Qnot_le_lt. intros Hle.
  apply Qle_bool_iff in Hle. rewrite Hle in Hc. discriminate.
Qed.

(** C10.  [attack] returns the computed damage, which is the attacker's
    base damage plus the bonus of its weapon (0 without one), doubled
    exactly when the attacker is a boss and the roll is below 0.2, whatever
    the health of the target.  The health taken off is
    [min(returned value, prior health)], so a target with less health than
    the damage loses less than the value returned; on a critical the
    second [take_damage] is applied to whatever the base attack left, also
    when that is 0, and its amount is part of the value returned. *)
Theorem attack_returns_computed_damage (w : World) (self enemy : ref)
    (s e : Character) (logger : bool) (roll : Q) :
  chars w !! self = Some s -> chars w !! enemy = Some e ->
  let d := damage s + from_option WeaponPy.damage_bonus 0 (weapon s) in
  let h := _health e in
  exists (crit : bool) w' h',
    (crit = true <-> cls s = Boss /\ (roll < 2 # 10)%Q)
    /\ let dealt := if crit then d + d else d in
       attack w self enemy logger roll = Some (w', dealt)
       /\ health_of w' enemy = Some h'
       /\ h' = (if crit then Z.max 0 (Z.max 0 (h - d) - d) else Z.max 0 (h - d))
       /\ (crit = false \/ 0 <= h -> h - h' = Z.min dealt h)
       /\ (crit = false \/ 0 <= h -> h < dealt -> h - h' < dealt)
       /\ (crit = true -> h <= d -> 0 <= d -> h' = 0 /\ dealt = d + d).
Proof.
  intros Hs He d h.
  assert (Hd : total_damage s = d).
  { unfold total_damage. subst d. destruct (weapon s); reflexivity. }
  exists (bool_decide (cls s = Boss) && critical roll).
  rewrite (attack_dispatch w self enemy s logger roll Hs).
  rewrite (Boss_attack_eq w self enemy s e logger roll Hs He).
  rewrite (Character_attack_eq w self enemy s e logger Hs He).
  assert (Hiff : bool_decide (cls s = Boss) && critical roll = true
                 <-> cls s = Boss /\ (roll < 2 # 10)%Q).
  { rewrite andb_true_iff, bool_decide_eq_true, critical_iff. reflexivity. }
  revert Hiff.
  destruct (bool_decide (cls s = Boss)), (critical roll); simpl; intros Hiff;
    eexists _, _; (split; [exact Hiff|]); rewrite Hd;
    (split; [reflexivity|]); unfold health_of;
    rewrite ?after_critical_lookup, ?decide_True by reflexivity;
    rewrite ?chars_log_combat; simpl; rewrite ?lookup_insert_eq; simpl;
    (split; [reflexivity|]); rewrite ?Hd; fold h; (split; [reflexivity|]);
    repeat split; intros; try discriminate; lia.
Qed.

(** A boss with base damage 50 and Spock in hand deals 55.  With the roll
    at 0 it reports 110 and the player loses the 30 that are left; with the
    roll at 1/2 it reports 55 and a player at 100 is left with 45. *)
Lemma attack_returns_computed_damage_witness :
  (exists w',
     attack (boss_fight_armed 30) 0%nat 1%nat false (0 # 1) = Some (w', 110)
     /\ health_of w' 1%nat = Some 0)
  /\ (exists w',
        attack (boss_fight_armed 100) 0%nat 1%nat false (1 # 2) = Some (w', 55)
        /\ health_of w' 1%nat = Some 45).
Proof.
  split.
  - destruct (attack_returns_computed_damage (boss_fight_armed 30) 0%nat 1%nat
                armed_boss (Player_init "Hero" 30 10) false (0 # 1)
                eq_refl eq_refl)
      as (crit & w' & h' & Hcrit & Hrun & Hh & Heq & _).
    assert (crit = true) as -> by (apply Hcrit; split; reflexivity).
    exists w'. split; [exact Hrun|]. rewrite Hh, Heq. reflexivity.
  - destruct (attack_returns_computed_damage (boss_fight_armed 100) 0%nat 1%nat
                armed_boss (Player_init "Hero" 100 10) false (1 # 2)
                eq_refl eq_refl)
      as (crit & w' & h' & Hcrit & Hrun & Hh & Heq & _).
    assert (crit = false) as ->.
    { destruct crit; [|reflexivity].
      destruct (proj1 Hcrit eq_refl) as [_ Hlt]. vm_compute in Hlt. discriminate. }
    exists w'. split; [exact Hrun|]. rewrite Hh, Heq. reflexivity.
Defined.

End CharacterFacts.

(* ===================================================================== *)
(** ** Properties of the inventory *)
(* ===================================================================== *)

Module InventoryFacts.
Import InventoryPy.

(** *** Weight *)

(** C2.  Adding the same consumable object twice: the second call finds the
    object itself as the stack to merge into, doubles its quantity and
    then charges the weight of the doubled stack.  The running weight is
    120, above the limit of 100, while the only held stack weighs 80. *)
Theorem add_item_twice_breaks_weight :
  exists st1 st2,
    add_item one_potion 0%nat = Some (true, st1)
    /\ add_item st1 0%nat = Some (true, st2)
    /\ items (inv st2) = [0%nat]
    /\ heap st2 !! 0%nat = Some (potion "Health Potion" (40 # 1) 2)
    /\ (current_weight (inv st2) == 120 # 1)%Q
    /\ (get_total_weight st2 == 80 # 1)%Q
    /\ (get_total_weight st2 < current_weight (inv st2))%Q
    /\ (MAX_WEIGHT < current_weight (inv st2))%Q.
Proof.
  eexists _, _. split; [vm_compute; reflexivity|].
  split; [vm_compute; reflexivity|].
  repeat split; vm_compute; reflexivity.
Qed.

(** Two distinct objects are enough when they share a name and differ in
    weight: the merge grows the held stack and charges the other weight. *)
Example add_item_merge_charges_other_weight :
  let st0 := mkState (<[0%nat := potion "Health Potion" (1 # 1) 1]>
                        (<[1%nat := potion "Health Potion" (2 # 1) 1]> ∅))
               Inventory_init in
  exists st2,
    run st0 [AddItem 0%nat; AddItem 1%nat] = Some st2
    /\ items (inv st2) = [0%nat]
    /\ (current_weight (inv st2) == 3 # 1)%Q
    /\ (get_total_weight st2 == 2 # 1)%Q.
Proof. eexists. repeat split; vm_compute; reflexivity. Qed.

(** *** Stacks *)

(** C3.  The held stack of 4 has spare capacity, so the 3 units of the
    second object are merged into it: it then holds 7 units with a
    [max_stack] of 5. *)
Theorem add_item_merge_exceeds_max_stack :
  exists st1 st2,
    add_item two_potions 0%nat = Some (true, st1)
    /\ add_item st1 1%nat = Some (true, st2)
    /\ items (inv st2) = [0%nat]
    /\ heap st2 !! 0%nat = Some (potion "Health Potion" (1 # 1) 7)
    /\ max_stack (fields (potion "Health Potion" (1 # 1) 7)) = 5
    /\ max_stack (fields (potion "Health Potion" (1 # 1) 7))
       < quantity (fields (potion "Health Potion" (1 # 1) 7)).
Proof.
  eexists _, _. split; [vm_compute; reflexivity|].
  split; [vm_compute; reflexivity|].
  repeat split; vm_compute; reflexivity.
Qed.

(** *** The cap on consumable types *)




Lemma three_potions_reached :
  run (mkState (heap three_potions) Inventory_init)
      [AddItem 0%nat; AddItem 1%nat; AddItem 2%nat]
  = Some three_potions.
Proof. vm_compute. reflexivity. Qed.


(** *** Equip slots *)

(** Removing the helmet while it is worn leaves it in its slot. *)
Lemma remove_item_leaves_slot :
  exists st',
    run one_helmet [AddItem 0%nat; EquipArmor 0%nat; RemoveItem 0%nat 1] = Some st'
    /\ equipped_armor (inv st') HELMET = Some 0%nat
    /\ items (inv st') = []
    /\ 0%nat ∉ items (inv st').
Proof.
  eexists. split; [vm_compute; reflexivity|].
  split; [reflexivity|]. split; [reflexivity|]. apply not_elem_of_nil.
Qed.

(** Equipping an equal copy of a held helmet puts the copy, which is not
    an entry of the list, into the slot. *)
Example equip_armor_equal_copy :
  let st0 := mkState (<[0%nat := helmet false]> (<[1%nat := helmet false]> ∅))
               Inventory_init in
  exists st',
    run st0 [AddItem 0%nat; EquipArmor 1%nat] = Some st'
    /\ equipped_armor (inv st') HELMET = Some 1%nat
    /\ items (inv st') = [0%nat].
Proof. eexists. repeat split; vm_compute; reflexivity. Qed.

Lemma find_from_lookup (p : ref -> bool) (i : nat) (l : list ref)
    (idx : nat) (r : ref) :
  find_from p i l = Some (idx, r) ->
  exists k, idx = (i + k)%nat /\ l !! k = Some r.
Proof.
  revert i. induction l as [|x l IH]; intros i Hf; simpl in Hf; [discriminate|].
  destruct (p x).
  - injection Hf as <- <-. exists 0%nat. split; [lia | reflexivity].
  - destruct (IH _ Hf) as (k & -> & Hk). exists (S k). split; [lia | exact Hk].
Qed.

Lemma find_first_lookup (p : ref -> bool) (l : list ref) (idx : nat) (r : ref) :
  find_first p l = Some (idx, r) -> l !! idx = Some r.
Proof.
  intros Hf. destruct (find_from_lookup _ _ _ _ _ Hf) as (k & -> & Hk). exact Hk.
Qed.

(** [pop(k)] drops one entry; every other reference stays. *)
Lemma elem_of_delete_other (l : list ref) (k : nat) (r x : ref) :
  x ∈ l -> l !! k = Some r -> x <> r -> x ∈ delete k l.
Proof.
  intros Hx Hk Hne. apply list_elem_of_lookup in Hx as [j Hj].
  destruct (Nat.lt_ge_cases j k) as [Hlt|Hge].
  - apply (list_elem_of_lookup_2 _ j). rewrite list_lookup_delete_lt by exact Hlt.
    exact Hj.
  - assert (j <> k) by (intros ->; congruence).
    apply (list_elem_of_lookup_2 _ (pred j)).
    rewrite list_lookup_delete_ge by lia.
    replace (S (pred j)) with j by lia. exact Hj.
Qed.

Lemma set_slot_Some (slots : ArmorType -> option ref) (t t' : ArmorType)
    (v : option ref) (r : ref) :
  set_slot slots t v t' = Some r ->
  (t' = t /\ v = Some r) \/ (t' <> t /\ slots t' = Some r).
Proof.
  unfold set_slot. destruct (decide (t' = t)); intros H; [left | right]; auto.
Qed.

Lemma add_item_slots (st st' : State) (item : ref) (b : bool) :
  add_item st item = Some (b, st') ->
  (forall r, r ∈ items (inv st) -> r ∈ items (inv st'))
  /\ equipped_armor (inv st') = equipped_armor (inv st)
  /\ equipped_weapon (inv st') = equipped_weapon (inv st).
Proof.
  unfold add_item, append_item. intros H.
  repeat (first [ progress simplify_option_eq | case_match ]);
    simpl; repeat split; auto; intros r Hr; apply elem_of_app; auto.
Qed.

Lemma remove_item_slots (st st' : State) (item : ref) (q : Z) (b : bool) :
  remove_item st item q = Some (b, st') ->
  keeps_equipped st item q = true ->
  (forall r, r ∈ items (inv st) -> is_equipped_ref st r = true ->
             r ∈ items (inv st'))
  /\ equipped_armor (inv st') = equipped_armor (inv st)
  /\ equipped_weapon (inv st') = equipped_weapon (inv st).
Proof.
  unfold remove_item, keeps_equipped, dropped_entry. intros H Hk.
  destruct (heap st !! item) as [it|]; simpl in *; [|discriminate].
  destruct (find_first _ _) as [[idx r]|] eqn:Hf; simpl in *.
  2:{ injection H as <- <-. auto. }
  destruct (heap st !! r) as [inv_item|]; simpl in *; [|discriminate].
  destruct (q <? quantity (fields inv_item)).
  - destruct (_ !! item); simpl in H; [|discriminate].
    injection H as <- <-. simpl. auto.
  - injection H as <- <-. simpl. repeat split; auto.
    intros x Hx Heq. destruct (decide (x = r)) as [->|Hne].
    + rewrite Heq in Hk. simpl in Hk. apply bool_decide_eq_true in Hk. exact Hk.
    + apply (elem_of_delete_other _ _ r); auto.
      apply (find_first_lookup _ _ _ _ Hf).
Qed.

Lemma unequip_armor_slots (st st' : State) (t : ArmorType) (b : bool) :
  unequip_armor st t = Some (b, st') ->
  items (inv st') = items (inv st)
  /\ (forall t' r, equipped_armor (inv st') t' = Some r ->
                   equipped_armor (inv st) t' = Some r)
  /\ equipped_weapon (inv st') = equipped_weapon (inv st).
Proof.
  unfold unequip_armor. intros H.
  destruct (equipped_armor (inv st) t) as [r|] eqn:Hr.
  - destruct (heap st !! r) as [a|]; simpl in H; [|discriminate].
    injection H as <- <-. simpl. repeat split; auto.
    intros t' r' Hs. apply set_slot_Some in Hs as [[_ ?]|[_ ?]];
      [discriminate | assumption].
  - injection H as <- <-. auto.
Qed.

Lemma unequip_weapon_slots (st st' : State) (b : bool) :
  unequip_weapon st = Some (b, st') ->
  items (inv st') = items (inv st)
  /\ equipped_armor (inv st') = equipped_armor (inv st)
  /\ (forall r, equipped_weapon (inv st') = Some r ->
                equipped_weapon (inv st) = Some r).
Proof.
  unfold unequip_weapon. intros H.
  destruct (equipped_weapon (inv st)) as [r|] eqn:Hr.
  - destruct (heap st !! r) as [a|]; simpl in H; [|discriminate].
    injection H as <- <-. simpl. repeat split; auto. discriminate.
  - injection H as <- <-. repeat split; auto. intros r' Hr'. congruence.
Qed.

(** The test [x not in self.items] lets an object through only if the
    object is itself an entry or equals one. *)
Lemma contains_held_or_copy (st : State) (x : ref) (it : Item) :
  heap st !! x = Some it ->
  contains st x it = true ->
  equal_copy st x = false ->
  x ∈ items (inv st).
Proof.
  intros Hx Hc Hcopy. unfold equal_copy in Hcopy. rewrite Hx in Hcopy.
  destruct (bool_decide (x ∈ items (inv st))) eqn:Hin.
  { apply bool_decide_eq_true in Hin. exact Hin. }
  simpl in Hcopy. unfold contains in Hc.
  apply existsb_exists in Hc as (r & Hr & Htest).
  apply orb_true_iff in Htest as [Hid|Heq].
  - apply bool_decide_eq_true in Hid. subst r. apply list_elem_of_In. exact Hr.
  - exfalso. assert (Hex : existsb (equals (heap st) it) (items (inv st)) = true).
    { apply existsb_exists. exists r. split; assumption. }
    rewrite Hex in Hcopy. discriminate.
Qed.

(** A slot that [equip_armor] fills takes an object that has passed the
    test [armor not in self.items]. *)
Lemma equip_armor_slots (st st' : State) (armor : ref) (b : bool) :
  equip_armor st armor = Some (b, st') ->
  items (inv st') = items (inv st)
  /\ (forall t r, equipped_armor (inv st') t = Some r ->
         (r = armor
          /\ exists a, heap st !! armor = Some a /\ contains st armor a = true)
         \/ equipped_armor (inv st) t = Some r)
  /\ equipped_weapon (inv st') = equipped_weapon (inv st).
Proof.
  unfold equip_armor. intros H.
  destruct (heap st !! armor) as [a|] eqn:Harmor; simpl in H; [|discriminate].
  destruct (contains st armor a) eqn:Hc; simpl in H.
  2:{ injection H as <- <-. auto. }
  destruct a as [|f t d du e| |]; try discriminate.
  assert (Hun : exists b1 st1,
             match equipped_armor (inv st) t with
             | Some _ => unequip_armor st t
             | None => Some (false, st)
             end = Some (b1, st1)
             /\ items (inv st1) = items (inv st)
             /\ (forall t' r, equipped_armor (inv st1) t' = Some r ->
                              equipped_armor (inv st) t' = Some r)
             /\ equipped_weapon (inv st1) = equipped_weapon (inv st)).
  { destruct (equipped_armor (inv st) t).
    - destruct (unequip_armor st t) as [[b1 st1]|] eqn:Hu; [|discriminate].
      exists b1, st1. split; [reflexivity|].
      exact (unequip_armor_slots _ _ _ _ Hu).
    - exists false, st. auto. }
  destruct Hun as (b1 & st1 & Hu & Hi & Ha & Hw). rewrite Hu in H. simpl in H.
  destruct (heap st1 !! armor) as [a1|]; simpl in H; [|discriminate].
  injection H as <- <-. simpl. repeat split; auto.
  intros t' r Hs. apply set_slot_Some in Hs as [[_ Heq]|[_ Hs]].
  - left. split; [congruence|]. eexists. split; [reflexivity | exact Hc].
  - right. auto.
Qed.

(** A slot that [equip_weapon] fills takes an object that has passed the
    test [weapon not in self.items]. *)
Lemma equip_weapon_slots (st st' : State) (weapon : ref) (b : bool) :
  equip_weapon st weapon = Some (b, st') ->
  items (inv st') = items (inv st)
  /\ equipped_armor (inv st') = equipped_armor (inv st)
  /\ (forall r, equipped_weapon (inv st') = Some r ->
         (r = weapon
          /\ exists a, heap st !! weapon = Some a /\ contains st weapon a = true)
         \/ equipped_weapon (inv st) = Some r).
Proof.
  unfold equip_weapon. intros H.
  destruct (heap st !! weapon) as [a|] eqn:Hweapon; simpl in H; [|discriminate].
  destruct (contains st weapon a) eqn:Hc; simpl in H.
  2:{ injection H as <- <-. auto. }
  assert (Hun : exists b1 st1,
             match equipped_weapon (inv st) with
             | Some _ => unequip_weapon st
             | None => Some (false, st)
             end = Some (b1, st1)
             /\ items (inv st1) = items (inv st)
             /\ equipped_armor (inv st1) = equipped_armor (inv st)
             /\ (forall r, equipped_weapon (inv st1) = Some r ->
                           equipped_weapon (inv st) = Some r)).
  { destruct (equipped_weapon (inv st)) eqn:Hew.
    - destruct (unequip_weapon st) as [[b1 st1]|] eqn:Hu; [|discriminate].
      exists b1, st1. split; [reflexivity|]. rewrite <- Hew.
      exact (unequip_weapon_slots _ _ _ Hu).
    - exists false, st. repeat split; auto. intros r Hr. congruence. }
  destruct Hun as (b1 & st1 & Hu & Hi & Ha & Hw). rewrite Hu in H. simpl in H.
  destruct (heap st1 !! weapon) as [a1|]; simpl in H; [|discriminate].
  injection H as <- <-. simpl. repeat split; auto.
  intros r Heq. left. split; [congruence|].
  eexists. split; [reflexivity | exact Hc].
Qed.

Lemma is_equipped_ref_armor (st : State) (t : ArmorType) (r : ref) :
  equipped_armor (inv st) t = Some r -> is_equipped_ref st r = true.
Proof.
  intros Hx. unfold is_equipped_ref. apply orb_true_iff. left.
  apply existsb_exists. exists t.
  split; [destruct t; simpl; tauto | apply bool_decide_eq_true_2; exact Hx].
Qed.

Lemma is_equipped_ref_weapon (st : State) (r : ref) :
  equipped_weapon (inv st) = Some r -> is_equipped_ref st r = true.
Proof.
  intros Hx. unfold is_equipped_ref. apply orb_true_iff. right.
  apply bool_decide_eq_true_2. exact Hx.
Qed.

Lemma call_preserves (st st' : State) (o : Op) (b : bool) :
  slots_in_items st ->
  respects_contract st o = true ->
  call st o = Some (b, st') ->
  slots_in_items st'.
Proof.
  intros [Harm Hwpn] Hc Hcall. destruct o as [r|r q|r|r|t| |r]; simpl in *.
  - destruct (add_item_slots _ _ _ _ Hcall) as (Hi & Ha & Hw).
    split; [intros t x | intros x]; rewrite ?Ha, ?Hw; intros Hx;
      apply Hi; eauto.
  - destruct (remove_item_slots _ _ _ _ _ Hcall Hc) as (Hi & Ha & Hw).
    split; [intros t x | intros x]; rewrite ?Ha, ?Hw; intros Hx;
      apply Hi; eauto using is_equipped_ref_armor, is_equipped_ref_weapon.
  - apply negb_true_iff in Hc.
    destruct (equip_armor_slots _ _ _ _ Hcall) as (Hi & Ha & Hw).
    split; [intros t x Hx | intros x Hx]; rewrite Hi.
    + destruct (Ha _ _ Hx) as [(-> & a & Hheap & Hin)|Hx']; [|eauto].
      exact (contains_held_or_copy _ _ _ Hheap Hin Hc).
    + rewrite Hw in Hx. eauto.
  - apply negb_true_iff in Hc.
    destruct (equip_weapon_slots _ _ _ _ Hcall) as (Hi & Ha & Hw).
    split; [intros t x Hx | intros x Hx]; rewrite Hi.
    + rewrite Ha in Hx. eauto.
    + destruct (Hw _ Hx) as [(-> & a & Hheap & Hin)|Hx']; [|eauto].
      exact (contains_held_or_copy _ _ _ Hheap Hin Hc).
  - destruct (unequip_armor_slots _ _ _ _ Hcall) as (Hi & Ha & Hw).
    split; [intros t' x Hx | intros x Hx]; rewrite Hi.
    + eauto.
    + rewrite Hw in Hx. eauto.
  - destruct (unequip_weapon_slots _ _ _ Hcall) as (Hi & Ha & Hw).
    split; [intros t' x Hx | intros x Hx]; rewrite Hi.
    + rewrite Ha in Hx. eauto.
    + eauto.
  - unfold use_consumable in Hcall.
    destruct (heap st !! r) as [c|]; simpl in Hcall; [|discriminate].
    destruct (negb _); [injection Hcall as <- <-; split; assumption|].
    destruct (is_Consumable c); [|discriminate].
    destruct (remove_item_slots _ _ _ _ _ Hcall Hc) as (Hi & Ha & Hw).
    split; [intros t x | intros x]; rewrite ?Ha, ?Hw; intros Hx;
      apply Hi; eauto using is_equipped_ref_armor, is_equipped_ref_weapon.
Qed.

Lemma run_preserves (ops : list Op) (st st' : State) :
  slots_in_items st ->
  follows_contract st ops = true ->
  run st ops = Some st' ->
  slots_in_items st'.
Proof.
  revert st. induction ops as [|o ops IH]; intros st Hinv Hfc Hrun; simpl in *.
  - injection Hrun as <-. exact Hinv.
  - apply andb_true_iff in Hfc as [Hc Hfc].
    destruct (call st o) as [[b st1]|] eqn:Hcall; simpl in Hrun; [|discriminate].
    apply (IH st1); [|exact Hfc|exact Hrun].
    exact (call_preserves _ _ _ _ Hinv Hc Hcall).
Qed.

(** C7, amended.  Start from an empty inventory and make any sequence of
    calls in which [equip_armor] and [equip_weapon] are never handed an
    equal copy of a held object (an object that is not itself an entry of
    [items] while an entry equals it), and in which no [remove_item] or
    [use_consumable] takes the last entry of an object that an equip slot
    holds.  Then every reference held by an armor slot or by the weapon
    slot is an entry of [items].  An object that is not held and equals no
    entry may be handed to the equip methods: their test turns it away.
    So may a held object of any class be handed to [equip_weapon]. *)
Theorem slots_in_items_invariant (h : gmap ref Item) (ops : list Op)
    (st' : State) :
  follows_contract (mkState h Inventory_init) ops = true ->
  run (mkState h Inventory_init) ops = Some st' ->
  slots_in_items st'.
Proof.
  apply run_preserves. split; simpl; intros; discriminate.
Qed.

(** The helmet is added twice.  The chestplate and the sword are not held
    and are turned away, the helmet is put on, the held potions go into
    the weapon slot, one potion is drunk and one of the two entries of the
    helmet is removed: what the slots hold is in the list. *)
Lemma slots_in_items_invariant_witness :
  exists st',
    run adventurer_kit
      [AddItem 0%nat; AddItem 0%nat; AddItem 1%nat; EquipArmor 3%nat;
       EquipWeapon 2%nat; EquipArmor 0%nat; EquipWeapon 1%nat;
       UseConsumable 1%nat; RemoveItem 0%nat 1]
    = Some st'
    /\ equipped_armor (inv st') HELMET = Some 0%nat
    /\ equipped_armor (inv st') CHESTPLATE = None
    /\ equipped_weapon (inv st') = Some 1%nat
    /\ items (inv st') = [0%nat; 1%nat]
    /\ slots_in_items st'.
Proof.
  eexists. split; [vm_compute; reflexivity|].
  split; [reflexivity|]. split; [reflexivity|]. split; [reflexivity|].
  split; [reflexivity|].
  apply (slots_in_items_invariant (heap adventurer_kit)
           [AddItem 0%nat; AddItem 0%nat; AddItem 1%nat; EquipArmor 3%nat;
            EquipWeapon 2%nat; EquipArmor 0%nat; EquipWeapon 1%nat;
            UseConsumable 1%nat; RemoveItem 0%nat 1]);
    vm_compute; reflexivity.
Defined.

End InventoryFacts.

(* ===================================================================== *)
(** ** Further properties of the weapon matchups *)
(* ===================================================================== *)

Module WeaponProps.
Import WeaponPy.

(** X1.  The verdicts of the two sides of a pairing mirror each other
    (a critical for one is a disadvantage for the other) except in four
    pairings, where the other side is Neutral: Lizard and Spock win over
    Paper and Rock, and lose to Rock and Paper, without the converse.  A
    kind is Neutral against itself. *)
Theorem resolve_mirror_exceptions :
  (forall a, resolve a (Some a) = Neutral)
  /\ (forall a b,
        resolve a (Some b) = CriticalAdvantage
        /\ resolve b (Some a) <> Disadvantage
        <-> (a = Lizard /\ b = Paper) \/ (a = Spock /\ b = Rock))
  /\ (forall a b,
        resolve a (Some b) = Disadvantage
        /\ resolve b (Some a) <> CriticalAdvantage
        <-> (a = Lizard /\ b = Rock) \/ (a = Spock /\ b = Paper))
  /\ (forall a b,
        resolve a (Some b) = CriticalAdvantage -> resolve b (Some a) <> Disadvantage ->
        resolve b (Some a) = Neutral)
  /\ (forall a b,
        resolve a (Some b) = Disadvantage -> resolve b (Some a) <> CriticalAdvantage ->
        resolve b (Some a) = Neutral).
Proof.
  split; [intros []; reflexivity|].
  split; [|split; [|split]]; intros a b.
  - destruct a, b; vm_compute; split;
      (intros [H1 H2] || intros [[H1 H2]|[H1 H2]]);
      try discriminate; try (exfalso; apply H2; reflexivity);
      try (split; [reflexivity | discriminate]); tauto.
  - destruct a, b; vm_compute; split;
      (intros [H1 H2] || intros [[H1 H2]|[H1 H2]]);
      try discriminate; try (exfalso; apply H2; reflexivity);
      try (split; [reflexivity | discriminate]); tauto.
  - destruct a, b; vm_compute; intros H1 H2; try discriminate;
      try reflexivity; exfalso; apply H2; reflexivity.
  - destruct a, b; vm_compute; intros H1 H2; try discriminate;
      try reflexivity; exfalso; apply H2; reflexivity.
Qed.

End WeaponProps.

(* ===================================================================== *)
(** ** Further properties of characters *)
(* ===================================================================== *)

Module CharacterProps.
Import CharacterPy CharacterFacts.

(** *** Damage in sequence *)

Lemma take_damage_twice (c : Character) (a b : Z) :
  0 <= b -> take_damage (take_damage c a) b = take_damage c (a + b).
Proof.
  intros Hb. unfold take_damage, with_health. simpl. f_equal. lia.
Qed.

Lemma take_damages_from (amounts : list Z) (c : Character) (a : Z) :
  Forall (fun x => 0 <= x) amounts ->
  take_damages (take_damage c a) amounts = take_damage c (a + sum_Z amounts).
Proof.
  revert a. induction amounts as [|b l IH]; intros a Hall; simpl.
  - f_equal. lia.
  - inversion Hall as [|? ? Hb Hl]; subst.
    rewrite take_damage_twice by exact Hb. rewrite IH by exact Hl.
    f_equal. lia.
Qed.

(** X2.  Hits add up: for a character with non-negative health, any
    sequence of [take_damage] calls with non-negative amounts leaves what one
    call with the sum of the amounts leaves, and the character is alive
    afterwards exactly when the sum is below the health it had. *)
Theorem take_damages_sum (c : Character) (amounts : list Z) :
  Forall (fun x => 0 <= x) amounts -> 0 <= _health c ->
  take_damages c amounts = take_damage c (sum_Z amounts)
  /\ _health (take_damages c amounts) = Z.max 0 (_health c - sum_Z amounts)
  /\ is_alive (take_damages c amounts) = (sum_Z amounts <? _health c).
Proof.
  intros Hall Hh.
  assert (Heq : take_damages c amounts = take_damage c (sum_Z amounts)).
  { destruct amounts as [|a l]; simpl.
    - destruct c. unfold take_damage, with_health. simpl in *. f_equal. lia.
    - inversion Hall; subst. apply take_damages_from. assumption. }
  rewrite Heq. split; [reflexivity|]. split; [reflexivity|].
  unfold is_alive. simpl.
  destruct (Z.ltb_spec (sum_Z amounts) (_health c));
    [apply Z.ltb_lt | apply Z.ltb_ge]; lia.
Qed.

Lemma take_damages_sum_witness :
  take_damages Goblin_init [5; 10; 20] = take_damage Goblin_init 35
  /\ is_alive (take_damages Goblin_init [5; 10; 20]) = false.
Proof.
  destruct (take_damages_sum Goblin_init [5; 10; 20]) as (H1 & _ & H3).
  - repeat constructor; lia.
  - simpl. lia.
  - split; [exact H1 | exact H3].
Defined.

(** *** Experience *)

Lemma div100_bounds (x : Z) : 100 * (x / 100) <= x < 100 * (x / 100) + 100.
Proof.
  pose proof (Z.div_mod x 100 ltac:(lia)).
  pose proof (Z.mod_pos_bound x 100 ltac:(lia)). lia.
Qed.

(** X3.  After [add_experience] on a character of level 1 or more, the
    experience is below [level * 100], whatever the amount: the level-up
    checks that [handle_victory] and [game_loop] make right after it,
    [experience >= level * 100], cannot fire. *)
Theorem add_experience_below_threshold (c : Character) (amount : Z) :
  1 <= level c ->
  experience (add_experience c amount) < level (add_experience c amount) * 100.
Proof.
  intros Hl. unfold add_experience. simpl.
  pose proof (div100_bounds (experience c + amount)).
  destruct (Z.ltb_spec 0 ((experience c + amount) / 100)); simpl; lia.
Qed.

Lemma add_experience_below_threshold_witness :
  experience (add_experience (Player_init "Hero" 100 10) 250)
  < level (add_experience (Player_init "Hero" 100 10) 250) * 100.
Proof.
  apply (add_experience_below_threshold (Player_init "Hero" 100 10) 250).
  simpl. lia.
Defined.

Lemma add_experience_stats (c : Character) (amount : Z) :
  let c' := add_experience c amount in
  experience c' = experience c + amount
  /\ level c <= level c'
  /\ _health c' - 10 * level c' = _health c - 10 * level c
  /\ damage c' - 2 * level c' = damage c - 2 * level c
  /\ cls c' = cls c /\ name c' = name c /\ weapon c' = weapon c.
Proof.
  unfold add_experience. simpl.
  destruct (Z.ltb_spec 0 ((experience c + amount) / 100)); simpl;
    repeat split; lia.
Qed.

(** X4.  Over any sequence of [add_experience] calls the experience grows
    by the sum of the amounts, the level never drops, and health and damage
    move in step with the level: 10 health and 2 damage for every level
    gained.  Class, name and weapon stay. *)
Theorem add_experiences_stats (amounts : list Z) (c : Character) :
  let c' := add_experiences c amounts in
  experience c' = experience c + sum_Z amounts
  /\ level c <= level c'
  /\ _health c' = _health c + 10 * (level c' - level c)
  /\ damage c' = damage c + 2 * (level c' - level c)
  /\ cls c' = cls c /\ name c' = name c /\ weapon c' = weapon c.
Proof.
  revert c. induction amounts as [|a l IH]; intros c; simpl.
  - repeat split; lia.
  - specialize (IH (add_experience c a)). simpl in IH.
    destruct IH as (He & Hl & Hh & Hd & Hc & Hn & Hw).
    destruct (add_experience_stats c a) as (He1 & Hl1 & Hh1 & Hd1 & Hc1 & Hn1 & Hw1).
    unfold add_experiences in *. simpl.
    repeat split; try congruence; lia.
Qed.

(** X5.  [level_up] composes additively, and since it does not check the
    sign of [levels], levelling up by [-a] undoes levelling up by [a]. *)
Theorem level_up_compose (c : Character) (a b : Z) :
  level_up (level_up c a) b = level_up c (a + b)
  /\ level_up (level_up c a) (- a) = c.
Proof.
  destruct c. unfold level_up. simpl. split; f_equal; lia.
Qed.


Lemma second_wind_checked_1000 : second_wind_checked 1001 = true.
Proof. vm_compute. reflexivity. Qed.

Lemma second_wind_checked_sound (bound h : Z) :
  second_wind_checked bound = true -> 0 <= h < bound ->
  second_wind_amount h = Some (h / 5).
Proof.
  unfold second_wind_checked. intros Hc Hh. rewrite forallb_forall in Hc.
  specialize (Hc (Z.to_nat h)).
  rewrite Z2Nat.id in Hc by lia.
  apply bool_decide_eq_true in Hc; [exact Hc|].
  apply in_seq. lia.
Qed.

Lemma second_wind_amount_fifth (h : Z) :
  0 <= h <= 1000 -> second_wind_amount h = Some (h / 5).
Proof.
  intros Hh. apply (second_wind_checked_sound 1001).
  - exact second_wind_checked_1000.
  - lia.
Qed.

(** X6.  For a player with health between 0 and 1000, Second Wind
    returns without raising, heals a fifth of the health rounded down (the
    float product and its truncation come out as [health // 5]), caps the
    result at 100 and changes nothing else.  From 84 health up the result
    is exactly 100, so a player whose health is above 100 loses health. *)
Theorem Player_special_ability_fifth (c : Character) :
  0 <= _health c <= 1000 ->
  exists c',
    Player_special_ability c
    = Some (c', name c +:+ " uses Second Wind and heals for "
                +:+ pretty (_health c / 5) +:+ " HP!")
    /\ c' = with_health c (Z.min 100 (_health c + _health c / 5))
    /\ _health c' <= 100
    /\ (84 <= _health c -> _health c' = 100).
Proof.
  intros Hh. eexists. split.
  - unfold Player_special_ability, get_health.
    rewrite (second_wind_amount_fifth _ Hh). simpl. reflexivity.
  - split; [reflexivity|]. simpl.
    pose proof (Z.div_mod (_health c) 5 ltac:(lia)).
    pose proof (Z.mod_pos_bound (_health c) 5 ltac:(lia)).
    split; [lia|]. intros. lia.
Qed.

Lemma Player_special_ability_fifth_witness :
  exists c',
    Player_special_ability (level_up (Player_init "Hero" 100 10) 1)
    = Some (c', "Hero uses Second Wind and heals for 22 HP!")
    /\ _health (level_up (Player_init "Hero" 100 10) 1) = 110
    /\ _health c' = 100.
Proof.
  destruct (Player_special_ability_fifth (level_up (Player_init "Hero" 100 10) 1))
    as (c' & Hrun & _ & _ & H100).
  - simpl. lia.
  - exists c'. split; [exact Hrun|]. split; [reflexivity|].
    apply H100. simpl. lia.
Defined.

(** X7.  The healer's ability sets the target's health to
    [max(0, health + 15)], which is [health + 15] for a non-negative
    health, with no ceiling; no other character changes, nothing is logged,
    and the message names healer and target. *)
Theorem Healer_special_ability_spec (w : World) (self target : ref)
    (s t : Character) :
  chars w !! self = Some s -> chars w !! target = Some t ->
  exists w',
    Healer_special_ability w self target
    = Some (w', name s +:+ " heals " +:+ name t +:+ " for 15 HP!")
    /\ chars w' !! target = Some (with_health t (Z.max 0 (_health t + 15)))
    /\ (0 <= _health t -> health_of w' target = Some (_health t + 15))
    /\ (forall r, r <> target -> chars w' !! r = chars w !! r)
    /\ log w' = log w.
Proof.
  intros Hs Ht. unfold Healer_special_ability. rewrite Hs, Ht. simpl.
  unfold get_health. rewrite set_health_max.
  rewrite lookup_insert_eq. simpl.
  assert (Hn : exists s1, <[target:=with_health t (Z.max 0 (_health t + 15))]> (chars w) !! self = Some s1 /\ name s1 = name s).
  { destruct (decide (target = self)) as [->|Hne].
    - rewrite lookup_insert_eq. eexists. split; [reflexivity|].
      simpl. congruence.
    - rewrite lookup_insert_ne by exact Hne. eauto. }
  destruct Hn as (s1 & Hs1 & Hname). rewrite Hs1. simpl. rewrite Hname.
  eexists. split; [reflexivity|]. simpl.
  split; [apply lookup_insert_eq|].
  split.
  - intros Hh. unfold health_of. simpl. rewrite lookup_insert_eq. simpl.
    f_equal. lia.
  - split; [|reflexivity]. intros r Hne.
    rewrite lookup_insert_ne by congruence. reflexivity.
Qed.

Lemma Healer_special_ability_spec_witness :
  exists w',
    Healer_special_ability party 0%nat 1%nat
    = Some (w', "Mira heals Hero for 15 HP!")
    /\ health_of w' 1%nat = Some 110.
Proof.
  destruct (Healer_special_ability_spec party 0%nat 1%nat
              (Character_init HealerSidekick "Mira" 40 3 None)
              (Player_init "Hero" 95 10) eq_refl eq_refl)
    as (w' & Hrun & _ & Hh & _).
  exists w'. split; [exact Hrun|]. apply Hh. simpl. lia.
Defined.

(** X8.  After any [attack], also a boss's critical one, the target's
    health is not negative; and if no character of the world had negative
    health before, none has afterwards. *)
Theorem attack_keeps_health_nonnegative (w w' : World) (self enemy : ref)
    (logger : bool) (roll : Q) (d : Z) :
  attack w self enemy logger roll = Some (w', d) ->
  (exists e', chars w' !! enemy = Some e' /\ 0 <= _health e')
  /\ (all_healthy w -> all_healthy w').
Proof.
  intros Hrun.
  destruct (chars w !! self) as [s|] eqn:Hs;
    [|unfold attack in Hrun; rewrite Hs in Hrun; discriminate].
  destruct (chars w !! enemy) as [e|] eqn:He.
  2:{ unfold attack in Hrun. rewrite Hs in Hrun. simpl in Hrun.
      unfold Boss_attack, Character_attack in Hrun. rewrite Hs, He in Hrun.
      simpl in Hrun. destruct (cls s); discriminate. }
  rewrite (attack_dispatch w self enemy s logger roll Hs) in Hrun.
  rewrite (Boss_attack_eq w self enemy s e logger roll Hs He) in Hrun.
  rewrite (Character_attack_eq w self enemy s e logger Hs He) in Hrun.
  assert (Hw' : exists h', 0 <= h'
            /\ forall r, chars w' !! r
                         = if decide (enemy = r) then Some (with_health e h')
                           else chars w !! r).
  { destruct (bool_decide (cls s = Boss)), (critical roll);
      injection Hrun as <- <-.
    - eexists. split; [|intros r; apply after_critical_lookup]. lia.
    - exists (Z.max 0 (_health e - total_damage s)). split; [lia|].
      intros r. rewrite chars_log_combat. simpl. apply lookup_insert.
    - exists (Z.max 0 (_health e - total_damage s)). split; [lia|].
      intros r. rewrite chars_log_combat. simpl. apply lookup_insert.
    - exists (Z.max 0 (_health e - total_damage s)). split; [lia|].
      intros r. rewrite chars_log_combat. simpl. apply lookup_insert. }
  destruct Hw' as (h' & Hh' & Hlk). split.
  - eexists. rewrite Hlk, decide_True by reflexivity. split; [reflexivity|].
    exact Hh'.
  - intros Hall r c Hc. rewrite Hlk in Hc.
    destruct (decide (enemy = r)); [|exact (Hall r c Hc)].
    injection Hc as <-. exact Hh'.
Qed.

Lemma attack_keeps_health_nonnegative_witness :
  exists w' e',
    attack boss_fight_weak 0%nat 1%nat true (1 # 10) = Some (w', 100)
    /\ chars w' !! 1%nat = Some e' /\ 0 <= _health e'.
Proof.
  eexists (after_critical boss_fight_weak 0%nat 1%nat
             (Boss_init "Dragon Lord" 300 50) (Player_init "Hero" 30 10) true).
  assert (Hrun : attack boss_fight_weak 0%nat 1%nat true (1 # 10)
                 = Some (after_critical boss_fight_weak 0%nat 1%nat
                           (Boss_init "Dragon Lord" 300 50)
                           (Player_init "Hero" 30 10) true, 100))
    by (vm_compute; reflexivity).
  destruct (attack_keeps_health_nonnegative _ _ _ _ _ _ _ Hrun)
    as [(e' & He' & Hh) _].
  exists e'. split; [exact Hrun|]. split; [exact He' | exact Hh].
Defined.

(** X9.  When the attacker's damage is not negative, the target is alive
    after [attack] exactly when the health it had exceeds the value the
    call returns; a target that is not alive is at 0 health. *)
Theorem attack_survival (w w' : World) (self enemy : ref) (s e : Character)
    (logger : bool) (roll : Q) (dealt : Z) :
  chars w !! self = Some s -> chars w !! enemy = Some e ->
  0 <= total_damage s ->
  attack w self enemy logger roll = Some (w', dealt) ->
  exists e',
    chars w' !! enemy = Some e'
    /\ is_alive e' = (dealt <? _health e)
    /\ (is_alive e' = false -> _health e' = 0).
Proof.
  intros Hs He Hd Hrun.
  rewrite (attack_dispatch w self enemy s logger roll Hs) in Hrun.
  rewrite (Boss_attack_eq w self enemy s e logger roll Hs He) in Hrun.
  rewrite (Character_attack_eq w self enemy s e logger Hs He) in Hrun.
  assert (Hcases :
    (dealt = total_damage s
     /\ chars w' !! enemy
        = Some (with_health e (Z.max 0 (_health e - total_damage s))))
    \/ (dealt = total_damage s + total_damage s
        /\ chars w' !! enemy
           = Some (with_health e
                     (Z.max 0 (Z.max 0 (_health e - total_damage s)
                               - total_damage s))))).
  { destruct (bool_decide (cls s = Boss)), (critical roll);
      injection Hrun as <- <-;
      [right; split; [reflexivity|];
       rewrite after_critical_lookup, decide_True by reflexivity; reflexivity
      | left; split; [reflexivity|]; rewrite chars_log_combat; simpl;
        apply lookup_insert_eq .. ]. }
  destruct Hcases as [[-> ->]|[-> ->]]; eexists; (split; [reflexivity|]);
    unfold is_alive; simpl; split.
  - destruct (Z.ltb_spec 0 (Z.max 0 (_health e - total_damage s))),
             (Z.ltb_spec (total_damage s) (_health e)); try reflexivity; lia.
  - intros Hdead. apply Z.ltb_ge in Hdead. lia.
  - destruct (Z.ltb_spec 0 (Z.max 0 (Z.max 0 (_health e - total_damage s)
                                     - total_damage s))),
             (Z.ltb_spec (total_damage s + total_damage s) (_health e));
      try reflexivity; lia.
  - intros Hdead. apply Z.ltb_ge in Hdead. lia.
Qed.

Lemma attack_survival_witness :
  exists w' e',
    attack (duel 30) 0%nat 1%nat false (0 # 1) = Some (w', 15)
    /\ chars w' !! 1%nat = Some e'
    /\ is_alive e' = true.
Proof.
  assert (Hrun : exists w', attack (duel 30) 0%nat 1%nat false (0 # 1) = Some (w', 15))
    by (eexists; vm_compute; reflexivity).
  destruct Hrun as [w' Hrun].
  destruct (attack_survival (duel 30) w' 0%nat 1%nat hero Goblin_init false
              (0 # 1) 15 eq_refl eq_refl ltac:(vm_compute; discriminate) Hrun)
    as (e' & He' & Halive & _).
  exists w', e'. split; [exact Hrun|]. split; [exact He' | exact Halive].
Defined.

End CharacterProps.

(* ===================================================================== *)
(** ** Properties of the victory handling *)
(* ===================================================================== *)

Module GameProps.
Import CharacterPy CharacterFacts CharacterProps GamePy.

Lemma add_experience_check_dead (p : Character) (xp : Z) :
  1 <= level p ->
  (level (add_experience p xp) * 100 <=? experience (add_experience p xp)) = false.
Proof.
  intros Hl. apply Z.leb_gt. unfold add_experience. simpl.
  pose proof (Z.div_mod (experience p + xp) 100 ltac:(lia)).
  pose proof (Z.mod_pos_bound (experience p + xp) 100 ltac:(lia)).
  destruct (Z.ltb_spec 0 ((experience p + xp) / 100)); simpl; lia.
Qed.

Lemma list_remove_Some (x : ref) (l : list ref) :
  x ∈ l ->
  exists l1 l2, l = l1 ++ x :: l2 /\ (x ∉ l1) /\ list_remove x l = Some (l1 ++ l2).
Proof.
  induction l as [|y l IH]; intros Hin.
  - inversion Hin.
  - simpl. destruct (decide (y = x)) as [->|Hne].
    + rewrite bool_decide_eq_true_2 by reflexivity.
      exists [], l. split; [reflexivity|]. split; [apply not_elem_of_nil | reflexivity].
    + rewrite bool_decide_eq_false_2 by exact Hne.
      apply elem_of_cons in Hin as [->|Hin]; [congruence|].
      destruct (IH Hin) as (l1 & l2 & -> & Hn & ->).
      exists (y :: l1), l2. split; [reflexivity|]. split; [|reflexivity].
      intros Hx. apply elem_of_cons in Hx as [->|Hx]; [congruence | auto].
Qed.

Lemma list_remove_None (x : ref) (l : list ref) :
  x ∉ l -> list_remove x l = None.
Proof.
  induction l as [|y l IH]; intros Hn; simpl; [reflexivity|].
  rewrite bool_decide_eq_false_2.
  - rewrite IH; [reflexivity|]. intros Hx. apply Hn. apply list_elem_of_further. exact Hx.
  - intros ->. apply Hn. apply list_elem_of_here.
Qed.

(** The player after the experience of a victory. *)
Lemma victory_world (g : Game) (enemy : ref) (p e : Character) :
  chars (world g) !! player g = Some p ->
  chars (world g) !! enemy = Some e ->
  1 <= level p ->
  let xp := if bool_decide (cls e = Boss) then 100 else 20 in
  let w2 := update (world g) (player g) (add_experience p xp) in
  handle_victory g enemy
  = if bool_decide (cls e = Boss)
    then (fun bs => mkGame (player g) bs w2) <$> list_remove enemy (bosses g)
    else Some (mkGame (player g) (bosses g) w2).
Proof.
  intros Hp He Hl xp w2. unfold handle_victory. rewrite He. simpl. rewrite Hp. simpl.
  rewrite lookup_insert_eq. simpl. fold xp.
  rewrite (add_experience_check_dead p xp Hl). fold w2.
  assert (He2 : exists e2, chars w2 !! enemy = Some e2 /\ cls e2 = cls e).
  { unfold w2. simpl. destruct (decide (player g = enemy)) as [Heq|Hne].
    - rewrite Heq, lookup_insert_eq. eexists. split; [reflexivity|].
      rewrite Heq in Hp. assert (p = e) by congruence. subst e.
      apply (add_experience_stats p xp).
    - rewrite lookup_insert_ne by exact Hne. eauto. }
  destruct He2 as (e2 & He2 & Hcls). rewrite He2. simpl. rewrite Hcls.
  destruct (bool_decide (cls e = Boss)); [|reflexivity].
  destruct (list_remove enemy (bosses g)); reflexivity.
Qed.

(** X10.  [handle_victory] with a player of level 1 or more: the player
    ends as [add_experience] leaves it with 20 experience for an enemy that
    is not a [Boss] and 100 for a [Boss]; the second level-up check of the
    method never fires; no other character changes. *)
Theorem handle_victory_reward (g : Game) (enemy : ref) (p e : Character)
    (g' : Game) :
  chars (world g) !! player g = Some p ->
  chars (world g) !! enemy = Some e ->
  1 <= level p ->
  handle_victory g enemy = Some g' ->
  let xp := if bool_decide (cls e = Boss) then 100 else 20 in
  chars (world g') !! player g = Some (add_experience p xp)
  /\ experience (add_experience p xp) = experience p + xp
  /\ experience (add_experience p xp) < level (add_experience p xp) * 100
  /\ player g' = player g
  /\ (forall r, r <> player g -> chars (world g') !! r = chars (world g) !! r).
Proof.
  intros Hp He Hl Hrun xp.
  rewrite (victory_world g enemy p e Hp He Hl) in Hrun. fold xp in Hrun.
  assert (Hw : world g' = update (world g) (player g) (add_experience p xp)
               /\ player g' = player g).
  { destruct (bool_decide (cls e = Boss)).
    - destruct (list_remove enemy (bosses g)); [|discriminate].
      injection Hrun as <-. split; reflexivity.
    - injection Hrun as <-. split; reflexivity. }
  destruct Hw as [Hw Hpl]. rewrite Hw. simpl.
  split; [apply lookup_insert_eq|].
  split; [apply (add_experience_stats p xp)|].
  split; [apply Z.leb_gt; exact (add_experience_check_dead p xp Hl)|].
  split; [exact Hpl|].
  intros r Hne. apply lookup_insert_ne. congruence.
Qed.

Lemma handle_victory_reward_witness :
  exists g',
    handle_victory after_goblin_fight 1%nat = Some g'
    /\ chars (world g') !! 0%nat
       = Some (add_experience (with_experience (Player_init "Hero" 100 10) 90) 20).
Proof.
  eexists. split; [vm_compute; reflexivity|].
  refine (proj1 (handle_victory_reward after_goblin_fight 1%nat
                   (with_experience (Player_init "Hero" 100 10) 90)
                   (with_health Goblin_init 0) _ eq_refl eq_refl _ _)).
  - simpl. lia.
  - vm_compute. reflexivity.
Defined.

(** X11.  [handle_victory] and the roster: an enemy that is not a [Boss]
    leaves the roster as it is; a [Boss] on the roster is taken off it once,
    at its first position; a [Boss] that is not on the roster makes
    [bosses.remove] raise. *)
Theorem handle_victory_roster (g : Game) (enemy : ref) (p e : Character) :
  chars (world g) !! player g = Some p ->
  chars (world g) !! enemy = Some e ->
  1 <= level p ->
  (cls e <> Boss ->
     exists g', handle_victory g enemy = Some g' /\ bosses g' = bosses g)
  /\ (cls e = Boss -> enemy ∉ bosses g -> handle_victory g enemy = None)
  /\ (cls e = Boss -> enemy ∈ bosses g ->
        exists g' l1 l2,
          handle_victory g enemy = Some g'
          /\ bosses g = l1 ++ enemy :: l2 /\ (enemy ∉ l1)
          /\ bosses g' = l1 ++ l2
          /\ length (bosses g) = S (length (bosses g'))).
Proof.
  intros Hp He Hl. rewrite (victory_world g enemy p e Hp He Hl).
  split; [|split].
  - intros Hc. rewrite bool_decide_eq_false_2 by exact Hc.
    eexists. split; reflexivity.
  - intros Hc Hn. rewrite bool_decide_eq_true_2 by exact Hc.
    rewrite (list_remove_None _ _ Hn). reflexivity.
  - intros Hc Hin. rewrite bool_decide_eq_true_2 by exact Hc.
    destruct (list_remove_Some _ _ Hin) as (l1 & l2 & Heq & Hn & Hrm).
    rewrite Hrm. simpl. eexists _, l1, l2. split; [reflexivity|].
    split; [exact Heq|]. split; [exact Hn|]. split; [reflexivity|].
    simpl. rewrite Heq, !length_app. simpl. lia.
Qed.

Lemma handle_victory_roster_witness :
  exists g',
    handle_victory after_boss_fight 2%nat = Some g' /\ bosses g' = [1%nat].
Proof.
  destruct (handle_victory_roster after_boss_fight 2%nat
              (Player_init "Hero" 100 10)
              (with_health (Boss_init "Dark Sorcerer" 200 12) 0)
              eq_refl eq_refl) as (_ & _ & H).
  - simpl. lia.
  - destruct H as (g' & l1 & l2 & Hrun & Heq & Hn & Hb & _).
    + reflexivity.
    + apply list_elem_of_further, list_elem_of_here.
    + exists g'. split; [exact Hrun|].
      vm_compute in Hrun. injection Hrun as <-. reflexivity.
Defined.

End GameProps.

(* ===================================================================== *)
(** ** Further properties of the inventory *)
(* ===================================================================== *)

Module InventoryProps.
Import InventoryPy InventoryFacts.

(** *** Presence and failure *)

Lemma fields_eqb_refl (f : ItemFields) : fields_eqb f f = true.
Proof.
  unfold fields_eqb. rewrite !bool_decide_eq_true_2 by reflexivity.
  rewrite Qeq_bool_refl. reflexivity.
Qed.

(** An object equals itself. *)
Lemma item_eqb_refl (it : Item) : item_eqb it it = true.
Proof.
  destruct it; simpl; rewrite fields_eqb_refl;
    rewrite ?bool_decide_eq_true_2 by reflexivity; reflexivity.
Qed.


(** [x in self.items] holds exactly when some entry equals [x]: an entry
    that is [x] itself equals it. *)
Lemma contains_find (st : State) (x : ref) (it : Item) :
  heap st !! x = Some it ->
  contains st x it
  = match find_first (equals (heap st) it) (items (inv st)) with
    | Some _ => true
    | None => false
    end.
Proof.
  intros Hx. unfold contains, find_first. generalize 0%nat.
  induction (items (inv st)) as [|r l IH]; intros i; simpl; [reflexivity|].
  assert (Hr : bool_decide (r = x) || equals (heap st) it r
               = equals (heap st) it r).
  { destruct (bool_decide (r = x)) eqn:Hd; [|reflexivity].
    apply bool_decide_eq_true in Hd. subst r. simpl.
    unfold equals. rewrite Hx. symmetry. apply item_eqb_refl. }
  rewrite Hr. destruct (equals (heap st) it r); simpl; [reflexivity | apply IH].
Qed.










Lemma remove_item_False (st st' : State) (item : ref) (q : Z) :
  remove_item st item q = Some (false, st') -> st' = st.
Proof.
  unfold remove_item. intros Hrun.
  destruct (heap st !! item) as [it|]; simpl in Hrun; [|discriminate].
  destruct (find_first _ _) as [[idx r]|].
  - destruct (heap st !! r); simpl in Hrun; [|discriminate].
    destruct (q <? _).
    + match type of Hrun with
      | context [?h !! item] => destruct (h !! item)
      end; simpl in Hrun; discriminate.
    + discriminate.
  - congruence.
Qed.

(** X13.  A call that returns [False] has changed nothing. *)
Theorem failed_call_changes_nothing (st st' : State) (o : Op) :
  call st o = Some (false, st') -> st' = st.
Proof.
  intros Hrun. destruct o as [r|r q|r|r|t| |r]; simpl in Hrun.
  - unfold add_item in Hrun.
    repeat (first [ progress simplify_option_eq | case_match ]); reflexivity.
  - exact (remove_item_False _ _ _ _ Hrun).
  - unfold equip_armor in Hrun.
    repeat (first [ progress simplify_option_eq | case_match ]); reflexivity.
  - unfold equip_weapon in Hrun.
    repeat (first [ progress simplify_option_eq | case_match ]); reflexivity.
  - unfold unequip_armor in Hrun.
    repeat (first [ progress simplify_option_eq | case_match ]); reflexivity.
  - unfold unequip_weapon in Hrun.
    repeat (first [ progress simplify_option_eq | case_match ]); reflexivity.
  - unfold use_consumable in Hrun.
    destruct (heap st !! r) as [c|]; simpl in Hrun; [|discriminate].
    destruct (negb _); [congruence|].
    destruct (is_Consumable c); [|discriminate].
    exact (remove_item_False _ _ _ _ Hrun).
Qed.

Lemma failed_call_changes_nothing_witness :
  call three_potions (AddItem 3%nat) = Some (false, three_potions).
Proof.
  assert (Hrun : exists st', call three_potions (AddItem 3%nat) = Some (false, st'))
    by (eexists; vm_compute; reflexivity).
  destruct Hrun as [st' Hrun].
  pose proof (failed_call_changes_nothing _ _ _ Hrun) as Heq.
  rewrite Heq in Hrun. exact Hrun.
Defined.

(** *** What the operations leave alone *)

Lemma frozen_set_quantity (it : Item) (q : Z) :
  frozen (set_quantity it q) = frozen it.
Proof. destruct it; reflexivity. Qed.

Lemma frozen_set_is_equipped (it : Item) (b : bool) :
  frozen (set_is_equipped it b) = frozen it.
Proof. destruct it; reflexivity. Qed.

Lemma insert_frozen (h : gmap ref Item) (r : ref) (x y : Item) (r' : ref) :
  h !! r = Some x -> frozen y = frozen x ->
  frozen <$> <[r := y]> h !! r' = frozen <$> h !! r'.
Proof.
  intros Hx Hf. rewrite lookup_insert. destruct (decide (r = r')) as [<-|]; [|reflexivity].
  rewrite Hx. simpl. congruence.
Qed.

Lemma add_item_frozen (st st' : State) (item : ref) (b : bool) (r : ref) :
  add_item st item = Some (b, st') ->
  frozen <$> heap st' !! r = frozen <$> heap st !! r.
Proof.
  unfold add_item, append_item. intros H.
  destruct (heap st !! item) as [it|]; simpl in H; [|discriminate].
  destruct (negb _); [injection H as <- <-; reflexivity|].
  destruct (bool_decide _); [|injection H as <- <-; reflexivity].
  destruct (find_first _ _) as [[idx existing]|].
  - destruct (heap st !! existing) as [ex|] eqn:Hex; simpl in H; [|discriminate].
    match type of H with
    | context [?h !! item] => destruct (h !! item)
    end; simpl in H; [|discriminate].
    injection H as <- <-. simpl.
    apply (insert_frozen _ _ ex); [exact Hex | apply frozen_set_quantity].
  - destruct (bool_decide _); injection H as <- <-; reflexivity.
Qed.

Lemma remove_item_frozen (st st' : State) (item : ref) (q : Z) (b : bool)
    (r : ref) :
  remove_item st item q = Some (b, st') ->
  frozen <$> heap st' !! r = frozen <$> heap st !! r.
Proof.
  unfold remove_item. intros H.
  destruct (heap st !! item) as [it|]; simpl in H; [|discriminate].
  destruct (find_first _ _) as [[idx r0]|]; [|injection H as <- <-; reflexivity].
  destruct (heap st !! r0) as [inv_item|] eqn:Hr0; simpl in H; [|discriminate].
  destruct (q <? _).
  - match type of H with
    | context [?h !! item] => destruct (h !! item)
    end; simpl in H; [|discriminate].
    injection H as <- <-. simpl.
    apply (insert_frozen _ _ inv_item); [exact Hr0 | apply frozen_set_quantity].
  - injection H as <- <-. reflexivity.
Qed.

(** The four calls that equip and unequip assign [is_equipped] only:
    whatever of an object does not depend on that flag is left as it was. *)
Section FlagFrame.
Context {A : Type} (g : Item -> A).
Hypothesis g_flag : forall it b, g (set_is_equipped it b) = g it.

Lemma insert_frame (h : gmap ref Item) (r : ref) (x y : Item) (r' : ref) :
  h !! r = Some x -> g y = g x -> g <$> <[r := y]> h !! r' = g <$> h !! r'.
Proof.
  intros Hx Hg. rewrite lookup_insert.
  destruct (decide (r = r')) as [<-|]; [|reflexivity].
  rewrite Hx. simpl. congruence.
Qed.

Lemma unequip_armor_frame (st st' : State) (t : ArmorType) (b : bool) (r : ref) :
  unequip_armor st t = Some (b, st') ->
  g <$> heap st' !! r = g <$> heap st !! r.
Proof.
  unfold unequip_armor. intros H.
  destruct (equipped_armor (inv st) t) as [r0|]; [|injection H as <- <-; reflexivity].
  destruct (heap st !! r0) as [a|] eqn:Ha; simpl in H; [|discriminate].
  injection H as <- <-. simpl.
  apply (insert_frame _ _ a); [exact Ha | apply g_flag].
Qed.

Lemma unequip_weapon_frame (st st' : State) (b : bool) (r : ref) :
  unequip_weapon st = Some (b, st') ->
  g <$> heap st' !! r = g <$> heap st !! r.
Proof.
  unfold unequip_weapon. intros H.
  destruct (equipped_weapon (inv st)) as [r0|]; [|injection H as <- <-; reflexivity].
  destruct (heap st !! r0) as [a|] eqn:Ha; simpl in H; [|discriminate].
  injection H as <- <-. simpl.
  apply (insert_frame _ _ a); [exact Ha | apply g_flag].
Qed.

Lemma equip_armor_frame (st st' : State) (armor : ref) (b : bool) (r : ref) :
  equip_armor st armor = Some (b, st') ->
  g <$> heap st' !! r = g <$> heap st !! r.
Proof.
  unfold equip_armor. intros H.
  destruct (heap st !! armor) as [a|]; simpl in H; [|discriminate].
  destruct (negb _); [injection H as <- <-; reflexivity|].
  destruct a as [|f t d du e| |]; try discriminate.
  assert (Hun : exists b1 st1,
             match equipped_armor (inv st) t with
             | Some _ => unequip_armor st t
             | None => Some (false, st)
             end = Some (b1, st1)
             /\ g <$> heap st1 !! r = g <$> heap st !! r).
  { destruct (equipped_armor (inv st) t).
    - destruct (unequip_armor st t) as [[b1 st1]|] eqn:Hu; [|discriminate].
      exists b1, st1. split; [reflexivity|].
      exact (unequip_armor_frame _ _ _ _ _ Hu).
    - exists false, st. split; reflexivity. }
  destruct Hun as (b1 & st1 & Hu & Hf). rewrite Hu in H. simpl in H.
  destruct (heap st1 !! armor) as [a1|] eqn:Ha1; simpl in H; [|discriminate].
  injection H as <- <-. simpl. rewrite <- Hf.
  apply (insert_frame _ _ a1); [exact Ha1 | apply g_flag].
Qed.

Lemma equip_weapon_frame (st st' : State) (weapon : ref) (b : bool) (r : ref) :
  equip_weapon st weapon = Some (b, st') ->
  g <$> heap st' !! r = g <$> heap st !! r.
Proof.
  unfold equip_weapon. intros H.
  destruct (heap st !! weapon) as [a|]; simpl in H; [|discriminate].
  destruct (negb _); [injection H as <- <-; reflexivity|].
  assert (Hun : exists b1 st1,
             match equipped_weapon (inv st) with
             | Some _ => unequip_weapon st
             | None => Some (false, st)
             end = Some (b1, st1)
             /\ g <$> heap st1 !! r = g <$> heap st !! r).
  { destruct (equipped_weapon (inv st)).
    - destruct (unequip_weapon st) as [[b1 st1]|] eqn:Hu; [|discriminate].
      exists b1, st1. split; [reflexivity|].
      exact (unequip_weapon_frame _ _ _ _ Hu).
    - exists false, st. split; reflexivity. }
  destruct Hun as (b1 & st1 & Hu & Hf). rewrite Hu in H. simpl in H.
  destruct (heap st1 !! weapon) as [a1|] eqn:Ha1; simpl in H; [|discriminate].
  injection H as <- <-. simpl. rewrite <- Hf.
  apply (insert_frame _ _ a1); [exact Ha1 | apply g_flag].
Qed.
End FlagFrame.

Lemma unequip_armor_frozen (st st' : State) (t : ArmorType) (b : bool) (r : ref) :
  unequip_armor st t = Some (b, st') ->
  frozen <$> heap st' !! r = frozen <$> heap st !! r.
Proof. apply (unequip_armor_frame frozen frozen_set_is_equipped). Qed.

Lemma unequip_weapon_frozen (st st' : State) (b : bool) (r : ref) :
  unequip_weapon st = Some (b, st') ->
  frozen <$> heap st' !! r = frozen <$> heap st !! r.
Proof. apply (unequip_weapon_frame frozen frozen_set_is_equipped). Qed.

Lemma equip_armor_frozen (st st' : State) (armor : ref) (b : bool) (r : ref) :
  equip_armor st armor = Some (b, st') ->
  frozen <$> heap st' !! r = frozen <$> heap st !! r.
Proof. apply (equip_armor_frame frozen frozen_set_is_equipped). Qed.

Lemma equip_weapon_frozen (st st' : State) (weapon : ref) (b : bool) (r : ref) :
  equip_weapon st weapon = Some (b, st') ->
  frozen <$> heap st' !! r = frozen <$> heap st !! r.
Proof. apply (equip_weapon_frame frozen frozen_set_is_equipped). Qed.

Lemma call_frozen (st st' : State) (o : Op) (b : bool) (r : ref) :
  call st o = Some (b, st') ->
  frozen <$> heap st' !! r = frozen <$> heap st !! r.
Proof.
  destruct o; simpl; intros H.
  - exact (add_item_frozen _ _ _ _ _ H).
  - exact (remove_item_frozen _ _ _ _ _ _ H).
  - exact (equip_armor_frozen _ _ _ _ _ H).
  - exact (equip_weapon_frozen _ _ _ _ _ H).
  - exact (unequip_armor_frozen _ _ _ _ _ H).
  - exact (unequip_weapon_frozen _ _ _ _ H).
  - unfold use_consumable in H.
    destruct (heap st !! consumable) as [c|]; simpl in H; [|discriminate].
    destruct (negb _); [injection H as <- <-; reflexivity|].
    destruct (is_Consumable c); [|discriminate].
    exact (remove_item_frozen _ _ _ _ _ _ H).
Qed.

(** X14.  Whatever calls are made, an object keeps its class and every
    attribute other than [quantity] and [is_equipped], and no object
    appears in or vanishes from the heap. *)
Theorem run_keeps_frozen_attributes (ops : list Op) (st st' : State) (r : ref) :
  run st ops = Some st' ->
  frozen <$> heap st' !! r = frozen <$> heap st !! r.
Proof.
  revert st. induction ops as [|o ops IH]; intros st Hrun; simpl in Hrun.
  - injection Hrun as <-. reflexivity.
  - destruct (call st o) as [[b st1]|] eqn:Hcall; simpl in Hrun; [|discriminate].
    rewrite (IH _ Hrun). exact (call_frozen _ _ _ _ _ Hcall).
Qed.

Lemma run_keeps_frozen_attributes_witness :
  exists st' p,
    run helmet_and_potions
      [AddItem 0%nat; AddItem 1%nat; EquipArmor 0%nat; UseConsumable 1%nat]
    = Some st'
    /\ heap st' !! 1%nat = Some p
    /\ frozen p = frozen (potion "Health Potion" (1 # 1) 2).
Proof.
  assert (Hrun : exists st',
             run helmet_and_potions
               [AddItem 0%nat; AddItem 1%nat; EquipArmor 0%nat; UseConsumable 1%nat]
             = Some st') by (eexists; vm_compute; reflexivity).
  destruct Hrun as [st' Hrun].
  pose proof (run_keeps_frozen_attributes _ _ _ 1%nat Hrun) as Hf.
  match type of Hf with
  | _ <$> ?x = _ => destruct x as [p|] eqn:Hp
  end.
  - exists st', p. split; [exact Hrun|]. split; [exact Hp|].
    assert (He : Some (frozen p)
                 = Some (frozen (potion "Health Potion" (1 # 1) 2))) by exact Hf.
    congruence.
  - exfalso. vm_compute in Hf. discriminate.
Defined.

(** *** The cap on consumable entries *)

Lemma frozen_item_type (it : Item) :
  item_type (fields (frozen it)) = item_type (fields it).
Proof. destruct it; reflexivity. Qed.

Lemma has_item_type_frozen (h h' : gmap ref Item) (t : ItemType) (r : ref) :
  frozen <$> h' !! r = frozen <$> h !! r ->
  has_item_type h' t r = has_item_type h t r.
Proof.
  unfold has_item_type. intros Hf.
  destruct (h' !! r) as [x'|], (h !! r) as [x|]; simpl in Hf;
    try discriminate; [|reflexivity].
  injection Hf as Hf.
  rewrite <- (frozen_item_type x'), <- (frozen_item_type x), Hf. reflexivity.
Qed.

(** The number of entries of a list that are of consumable type. *)
Lemma count_ext (h h' : gmap ref Item) (l : list ref) :
  (forall r, is_consumable_typed h' r = is_consumable_typed h r) ->
  length (filter (fun r => is_consumable_typed h' r = true) l)
  = length (filter (fun r => is_consumable_typed h r = true) l).
Proof.
  intros Hext. induction l as [|x l IH]; [reflexivity|].
  rewrite !filter_cons, Hext.
  destruct (decide (is_consumable_typed h x = true)); simpl; rewrite IH; reflexivity.
Qed.

Lemma count_delete (h : gmap ref Item) (l : list ref) (i : nat) :
  (length (filter (fun r => is_consumable_typed h r = true) (delete i l))
   <= length (filter (fun r => is_consumable_typed h r = true) l))%nat.
Proof.
  revert i. induction l as [|x l IH]; intros i; [destruct i; simpl; lia|].
  destruct i as [|i]; simpl.
  - rewrite filter_cons. destruct (decide _); simpl; lia.
  - rewrite !filter_cons. specialize (IH i).
    destruct (decide _); simpl; lia.
Qed.

Lemma add_item_items (st st' : State) (item : ref) (b : bool) :
  add_item st item = Some (b, st') ->
  items (inv st') = items (inv st)
  \/ (items (inv st') = items (inv st) ++ [item]
      /\ (is_consumable_typed (heap st) item = true ->
          (consumable_count st < MAX_CONSUMABLES)%nat)).
Proof.
  unfold add_item, append_item. intros H.
  destruct (heap st !! item) as [it|] eqn:Hit; simpl in H; [|discriminate].
  destruct (negb _); [injection H as <- <-; left; reflexivity|].
  destruct (bool_decide (item_type (fields it) = CONSUMABLE)) eqn:Hty.
  - destruct (find_first _ _) as [[idx existing]|].
    + destruct (heap st !! existing) as [ex|]; simpl in H; [|discriminate].
      match type of H with
      | context [?h !! item] => destruct (h !! item)
      end; simpl in H; [|discriminate].
      injection H as <- <-. left. reflexivity.
    + destruct (bool_decide (MAX_CONSUMABLES <= consumable_count st)%nat) eqn:Hcap;
        injection H as <- <-; [left; reflexivity|].
      right. split; [reflexivity|]. intros _.
      apply bool_decide_eq_false in Hcap. lia.
  - injection H as <- <-. right. split; [reflexivity|].
    unfold is_consumable_typed. rewrite Hit, Hty. discriminate.
Qed.

Lemma remove_item_items (st st' : State) (item : ref) (q : Z) (b : bool) :
  remove_item st item q = Some (b, st') ->
  items (inv st') = items (inv st)
  \/ exists idx, items (inv st') = delete idx (items (inv st)).
Proof.
  unfold remove_item. intros H.
  destruct (heap st !! item) as [it|]; simpl in H; [|discriminate].
  destruct (find_first _ _) as [[idx r0]|]; [|injection H as <- <-; left; reflexivity].
  destruct (heap st !! r0) as [inv_item|]; simpl in H; [|discriminate].
  destruct (q <? _).
  - match type of H with
    | context [?h !! item] => destruct (h !! item)
    end; simpl in H; [|discriminate].
    injection H as <- <-. left. reflexivity.
  - injection H as <- <-. right. exists idx. reflexivity.
Qed.

Lemma call_items (st st' : State) (o : Op) (b : bool) :
  call st o = Some (b, st') ->
  items (inv st') = items (inv st)
  \/ (exists idx, items (inv st') = delete idx (items (inv st)))
  \/ (exists item, o = AddItem item
        /\ items (inv st') = items (inv st) ++ [item]
        /\ (is_consumable_typed (heap st) item = true ->
            (consumable_count st < MAX_CONSUMABLES)%nat)).
Proof.
  destruct o as [r|r q|r|r|t| |r]; simpl; intros H.
  - destruct (add_item_items _ _ _ _ H) as [Hi|Hi]; [left; exact Hi|].
    right. right. exists r. split; [reflexivity | exact Hi].
  - destruct (remove_item_items _ _ _ _ _ H) as [Hi|Hi]; [left | right; left]; exact Hi.
  - left. exact (proj1 (equip_armor_slots _ _ _ _ H)).
  - left. exact (proj1 (equip_weapon_slots _ _ _ _ H)).
  - left. exact (proj1 (unequip_armor_slots _ _ _ _ H)).
  - left. exact (proj1 (unequip_weapon_slots _ _ _ H)).
  - unfold use_consumable in H.
    destruct (heap st !! r) as [c|]; simpl in H; [|discriminate].
    destruct (negb _); [injection H as <- <-; left; reflexivity|].
    destruct (is_Consumable c); [|discriminate].
    destruct (remove_item_items _ _ _ _ _ H) as [Hi|Hi]; [left | right; left]; exact Hi.
Qed.

Lemma call_cap (st st' : State) (o : Op) (b : bool) :
  call st o = Some (b, st') ->
  (consumable_count st <= MAX_CONSUMABLES)%nat ->
  (consumable_count st' <= MAX_CONSUMABLES)%nat.
Proof.
  intros Hcall Hcap. unfold consumable_count in *.
  rewrite (count_ext (heap st) (heap st')).
  2:{ intros r. apply (has_item_type_frozen _ _ CONSUMABLE).
      exact (call_frozen _ _ _ _ r Hcall). }
  destruct (call_items _ _ _ _ Hcall) as [->|[[idx ->]|(item & _ & -> & Hlt)]].
  - exact Hcap.
  - pose proof (count_delete (heap st) (items (inv st)) idx). lia.
  - rewrite filter_app, length_app, filter_cons, filter_nil.
    destruct (decide (is_consumable_typed (heap st) item = true)) as [Hc|Hc]; simpl.
    + specialize (Hlt Hc). unfold consumable_count in Hlt. lia.
    + lia.
Qed.

(** X15.  From an empty inventory, whatever calls are made, the number
    of entries of consumable type never exceeds [MAX_CONSUMABLES]. *)
Theorem consumable_count_capped (h : gmap ref Item) (ops : list Op)
    (st' : State) :
  run (mkState h Inventory_init) ops = Some st' ->
  (consumable_count st' <= MAX_CONSUMABLES)%nat.
Proof.
  assert (Hgen : forall ops st, run st ops = Some st' ->
            (consumable_count st <= MAX_CONSUMABLES)%nat ->
            (consumable_count st' <= MAX_CONSUMABLES)%nat).
  { clear ops. intros ops. induction ops as [|o ops IH]; intros st Hrun Hcap;
      simpl in Hrun.
    - injection Hrun as <-. exact Hcap.
    - destruct (call st o) as [[b st1]|] eqn:Hcall; simpl in Hrun; [|discriminate].
      exact (IH _ Hrun (call_cap _ _ _ _ Hcall Hcap)). }
  intros Hrun. apply (Hgen ops _ Hrun). unfold consumable_count, MAX_CONSUMABLES.
  simpl. lia.
Qed.

Lemma consumable_count_capped_witness :
  exists st',
    run (mkState (heap three_potions) Inventory_init)
      [AddItem 0%nat; AddItem 1%nat; AddItem 2%nat; AddItem 3%nat]
    = Some st'
    /\ consumable_count st' = 3%nat
    /\ (consumable_count st' <= MAX_CONSUMABLES)%nat.
Proof.
  eexists. split; [vm_compute; reflexivity|]. split; [vm_compute; reflexivity|].
  apply (consumable_count_capped (heap three_potions)
           [AddItem 0%nat; AddItem 1%nat; AddItem 2%nat; AddItem 3%nat]).
  vm_compute. reflexivity.
Defined.

(** *** Queries *)

Lemma by_type_cons (h : gmap ref Item) (t : ItemType) (r : ref) (l : list ref) :
  List.filter (has_item_type h t) (r :: l)
  = if has_item_type h t r then r :: List.filter (has_item_type h t) l
    else List.filter (has_item_type h t) l.
Proof. reflexivity. Qed.

Lemma by_type_partition_list (h : gmap ref Item) (l : list ref) :
  (forall r, r ∈ l -> is_Some (h !! r)) ->
  List.filter (has_item_type h WEAPON) l
  ++ List.filter (has_item_type h ARMOR) l
  ++ List.filter (has_item_type h CONSUMABLE) l
  ++ List.filter (has_item_type h MISC) l
  ≡ₚ l.
Proof.
  induction l as [|r l IH]; intros Hall; [reflexivity|].
  assert (IH' := IH (fun x Hx => Hall x (list_elem_of_further _ _ _ Hx))).
  destruct (Hall r (list_elem_of_here _ _)) as [it Hit].
  assert (Ht : forall t, has_item_type h t r
                         = bool_decide (item_type (fields it) = t))
    by (intros t; unfold has_item_type; rewrite Hit; reflexivity).
  rewrite !by_type_cons, !Ht.
  destruct (item_type (fields it)); simpl; symmetry.
  - apply Permutation_cons_app. symmetry. exact IH'.
  - constructor. symmetry. exact IH'.
  - rewrite app_assoc. apply Permutation_cons_app.
    rewrite <- app_assoc. symmetry. exact IH'.
  - rewrite !app_assoc. apply Permutation_cons_app.
    rewrite <- !app_assoc. symmetry. exact IH'.
Qed.

Lemma length_filter_bool (p : ref -> bool) (l : list ref) :
  length (filter (fun r => p r = true) l) = length (List.filter p l).
Proof.
  induction l as [|x l IH]; [reflexivity|]. rewrite filter_cons. simpl.
  destruct (decide (p x = true)) as [Hp|Hp].
  - rewrite Hp. simpl. rewrite IH. reflexivity.
  - apply not_true_is_false in Hp. rewrite Hp. exact IH.
Qed.

(** X16.  When every entry is a live object, the four lists that
    [get_inventory_by_type] gives for the four types hold, between them,
    every entry exactly once; and the count that [add_item] compares with
    the cap is the length of the list for [CONSUMABLE]. *)
Theorem get_inventory_by_type_partition (st : State) :
  (forall r, r ∈ items (inv st) -> is_Some (heap st !! r)) ->
  get_inventory_by_type st WEAPON ++ get_inventory_by_type st ARMOR
  ++ get_inventory_by_type st CONSUMABLE ++ get_inventory_by_type st MISC
  ≡ₚ items (inv st)
  /\ consumable_count st = length (get_inventory_by_type st CONSUMABLE)
  /\ (forall t r, r ∈ get_inventory_by_type st t <->
        r ∈ items (inv st)
        /\ exists it, heap st !! r = Some it /\ item_type (fields it) = t).
Proof.
  intros Hall. split; [exact (by_type_partition_list _ _ Hall)|].
  split; [apply (length_filter_bool (has_item_type (heap st) CONSUMABLE))|].
  intros t r. unfold get_inventory_by_type.
  rewrite list_elem_of_In, filter_In, <- list_elem_of_In. unfold has_item_type.
  split.
  - intros [Hin Ht]. split; [exact Hin|].
    destruct (heap st !! r) as [it|]; [|discriminate].
    exists it. split; [reflexivity|]. apply bool_decide_eq_true in Ht. exact Ht.
  - intros [Hin (it & -> & Ht)]. split; [exact Hin|].
    apply bool_decide_eq_true_2. exact Ht.
Qed.

Lemma get_inventory_by_type_partition_witness :
  get_inventory_by_type three_potions WEAPON
  ++ get_inventory_by_type three_potions ARMOR
  ++ get_inventory_by_type three_potions CONSUMABLE
  ++ get_inventory_by_type three_potions MISC
  ≡ₚ items (inv three_potions).
Proof.
  apply (get_inventory_by_type_partition three_potions).
  intros r Hr. apply list_elem_of_In in Hr. simpl in Hr.
  destruct Hr as [<-|[<-|[<-|[]]]]; eexists; reflexivity.
Defined.

(** X17.  The dict of [get_equipped_items] always has the key
    ['weapon'], whose value is the equipped weapon or [None]; it has the
    key of an armor type exactly when that slot is occupied, with the
    occupant as the value; and it has no other key. *)
Theorem get_equipped_items_keys (st : State) :
  get_equipped_items st !! "weapon" = Some (equipped_weapon (inv st))
  /\ (forall t,
        get_equipped_items st !! ArmorType_value t
        = Some <$> equipped_armor (inv st) t)
  /\ (forall k, k <> "weapon" -> (forall t, k <> ArmorType_value t) ->
        get_equipped_items st !! k = None).
Proof.
  unfold get_equipped_items, all_armor_types. simpl.
  destruct (equipped_armor (inv st) HELMET) eqn:H1,
           (equipped_armor (inv st) CHESTPLATE) eqn:H2,
           (equipped_armor (inv st) LEGGINGS) eqn:H3,
           (equipped_armor (inv st) BOOTS) eqn:H4,
           (equipped_armor (inv st) CHARM) eqn:H5;
    (split; [|split];
     [ rewrite ?lookup_insert_ne by discriminate; apply lookup_insert_eq
     | intros []; rewrite ?H1, ?H2, ?H3, ?H4, ?H5; simpl;
       repeat (first [ rewrite lookup_insert_eq; reflexivity
                     | rewrite lookup_insert_ne by discriminate ]);
       apply lookup_empty
     | intros k Hw Ha;
       pose proof (Ha HELMET); pose proof (Ha CHESTPLATE);
       pose proof (Ha LEGGINGS); pose proof (Ha BOOTS); pose proof (Ha CHARM);
       simpl in *;
       rewrite ?lookup_insert_ne by congruence; apply lookup_empty ]).
Qed.

(** *** Equipping and unequipping *)

Lemma contains_elem_of (st : State) (x : ref) (it : Item) :
  x ∈ items (inv st) -> contains st x it = true.
Proof.
  intros Hin. unfold contains. apply existsb_exists. exists x.
  split; [apply list_elem_of_In; exact Hin|].
  rewrite bool_decide_eq_true_2 by reflexivity. reflexivity.
Qed.

Lemma set_slot_same (slots : ArmorType -> option ref) (t : ArmorType)
    (v : option ref) : set_slot slots t v t = v.
Proof. unfold set_slot. rewrite decide_True by reflexivity. reflexivity. Qed.

Lemma set_slot_other (slots : ArmorType -> option ref) (t t' : ArmorType)
    (v : option ref) : t' <> t -> set_slot slots t v t' = slots t'.
Proof. intros Hne. unfold set_slot. rewrite decide_False by exact Hne. reflexivity. Qed.

(** X18.  Equipping a held armor into an empty slot and unequipping the
    slot again: both calls succeed, in between the slot holds the armor
    and its flag is set, and afterwards the objects, the list, the slots
    and the weight are what they were. *)
Theorem equip_unequip_armor_round_trip (st : State) (a : ref) (f : ItemFields)
    (t : ArmorType) (d du : Z) :
  heap st !! a = Some (Armor f t d du false) ->
  a ∈ items (inv st) ->
  equipped_armor (inv st) t = None ->
  exists st1 st2,
    equip_armor st a = Some (true, st1)
    /\ equipped_armor (inv st1) t = Some a
    /\ heap st1 !! a = Some (Armor f t d du true)
    /\ items (inv st1) = items (inv st)
    /\ unequip_armor st1 t = Some (true, st2)
    /\ heap st2 = heap st
    /\ items (inv st2) = items (inv st)
    /\ (forall t', equipped_armor (inv st2) t' = equipped_armor (inv st) t')
    /\ equipped_weapon (inv st2) = equipped_weapon (inv st)
    /\ current_weight (inv st2) = current_weight (inv st).
Proof.
  intros Ha Hin Hslot.
  assert (H1 : equip_armor st a
               = Some (true,
                       mkState (<[a := Armor f t d du true]> (heap st))
                         (mkInventory (items (inv st))
                            (set_slot (equipped_armor (inv st)) t (Some a))
                            (equipped_weapon (inv st)) (current_weight (inv st))))).
  { unfold equip_armor. rewrite Ha. simpl.
    rewrite (contains_elem_of st a _ Hin). simpl. rewrite Hslot. simpl.
    rewrite Ha. reflexivity. }
  eexists _, _. split; [exact H1|]. simpl.
  split; [apply set_slot_same|]. split; [apply lookup_insert_eq|].
  split; [reflexivity|].
  unfold unequip_armor. simpl. rewrite set_slot_same, lookup_insert_eq. simpl.
  split; [reflexivity|]. simpl.
  split; [rewrite insert_insert_eq; apply insert_id; exact Ha|].
  split; [reflexivity|].
  split; [|split; reflexivity].
  intros t'. unfold set_slot. destruct (decide (t' = t)) as [->|]; [|reflexivity].
  symmetry. exact Hslot.
Qed.

Lemma equip_unequip_armor_round_trip_witness :
  exists st0 st1 st2,
    add_item one_helmet 0%nat = Some (true, st0)
    /\ equip_armor st0 0%nat = Some (true, st1)
    /\ unequip_armor st1 HELMET = Some (true, st2)
    /\ heap st2 = heap st0.
Proof.
  assert (H0 : exists st0, add_item one_helmet 0%nat = Some (true, st0)
                           /\ heap st0 !! 0%nat = Some (helmet false)
                           /\ 0%nat ∈ items (inv st0)
                           /\ equipped_armor (inv st0) HELMET = None).
  { eexists. split; [vm_compute; reflexivity|]. split; [reflexivity|].
    split; [apply list_elem_of_here | reflexivity]. }
  destruct H0 as (st0 & Hadd & Hh & Hin & Hs).
  destruct (equip_unequip_armor_round_trip st0 0%nat _ _ _ _ Hh Hin Hs)
    as (st1 & st2 & He & _ & _ & _ & Hu & Hheap & _).
  exists st0, st1, st2. repeat split; assumption.
Defined.

(** X19.  The same round trip for a held weapon and the weapon slot. *)
Theorem equip_unequip_weapon_round_trip (st : State) (w : ref) (f : ItemFields)
    (wt : WeaponType) (d du rg : Z) :
  heap st !! w = Some (Weapon f wt d du false rg) ->
  w ∈ items (inv st) ->
  equipped_weapon (inv st) = None ->
  exists st1 st2,
    equip_weapon st w = Some (true, st1)
    /\ equipped_weapon (inv st1) = Some w
    /\ heap st1 !! w = Some (Weapon f wt d du true rg)
    /\ items (inv st1) = items (inv st)
    /\ unequip_weapon st1 = Some (true, st2)
    /\ st2 = st.
Proof.
  intros Hw Hin Hslot.
  assert (H1 : equip_weapon st w
               = Some (true,
                       mkState (<[w := Weapon f wt d du true rg]> (heap st))
                         (mkInventory (items (inv st)) (equipped_armor (inv st))
                            (Some w) (current_weight (inv st))))).
  { unfold equip_weapon. rewrite Hw. simpl.
    rewrite (contains_elem_of st w _ Hin). simpl. rewrite Hslot. simpl.
    rewrite Hw. reflexivity. }
  eexists _, _. split; [exact H1|]. simpl.
  split; [reflexivity|]. split; [apply lookup_insert_eq|].
  split; [reflexivity|].
  unfold unequip_weapon. simpl. rewrite lookup_insert_eq. simpl.
  split; [reflexivity|].
  rewrite insert_insert_eq, (insert_id _ _ _ Hw).
  destruct st as [h [its ea ew cw]]. simpl in *. rewrite Hslot. reflexivity.
Qed.

Lemma equip_unequip_weapon_round_trip_witness :
  exists st1,
    equip_weapon sword_held 0%nat = Some (true, st1)
    /\ unequip_weapon st1 = Some (true, sword_held).
Proof.
  destruct (equip_unequip_weapon_round_trip sword_held 0%nat _ _ _ _ _
              eq_refl (list_elem_of_here _ _) eq_refl)
    as (st1 & st2 & He & _ & _ & _ & Hu & ->).
  exists st1. split; assumption.
Defined.

(** X20.  Equipping a held armor into a slot that another armor holds
    takes the other armor out of the slot and clears its flag; the other
    armor stays in the list, and nothing else about the inventory
    changes. *)
Theorem equip_armor_replaces (st : State) (a b : ref) (fa fb : ItemFields)
    (t : ArmorType) (da dua db dub : Z) (eb : bool) :
  a <> b ->
  heap st !! a = Some (Armor fa t da dua true) ->
  heap st !! b = Some (Armor fb t db dub eb) ->
  b ∈ items (inv st) ->
  equipped_armor (inv st) t = Some a ->
  exists st',
    equip_armor st b = Some (true, st')
    /\ equipped_armor (inv st') t = Some b
    /\ heap st' !! b = Some (Armor fb t db dub true)
    /\ heap st' !! a = Some (Armor fa t da dua false)
    /\ (forall r, r <> a -> r <> b -> heap st' !! r = heap st !! r)
    /\ items (inv st') = items (inv st)
    /\ (forall t', t' <> t ->
          equipped_armor (inv st') t' = equipped_armor (inv st) t')
    /\ equipped_weapon (inv st') = equipped_weapon (inv st)
    /\ current_weight (inv st') = current_weight (inv st).
Proof.
  intros Hne Ha Hb Hin Hslot.
  eexists. split.
  - unfold equip_armor. rewrite Hb. simpl.
    rewrite (contains_elem_of st b _ Hin). simpl. rewrite Hslot.
    unfold unequip_armor. rewrite Hslot, Ha. simpl.
    rewrite lookup_insert_ne by exact Hne. rewrite Hb. simpl. reflexivity.
  - simpl. split; [apply set_slot_same|].
    split; [apply lookup_insert_eq|].
    split; [rewrite lookup_insert_ne by congruence; apply lookup_insert_eq|].
    split; [intros r Hra Hrb; rewrite !lookup_insert_ne by congruence; reflexivity|].
    split; [reflexivity|].
    split; [|split; reflexivity].
    intros t' Ht. rewrite !set_slot_other by exact Ht. reflexivity.
Qed.

Lemma equip_armor_replaces_witness :
  exists st',
    equip_armor two_helmets 1%nat = Some (true, st')
    /\ equipped_armor (inv st') HELMET = Some 1%nat
    /\ heap st' !! 0%nat = Some (helmet false)
    /\ items (inv st') = [0%nat; 1%nat].
Proof.
  destruct (equip_armor_replaces two_helmets 0%nat 1%nat _ _ _ _ _ _ _ _
              ltac:(discriminate) eq_refl eq_refl
              (list_elem_of_further _ _ _ (list_elem_of_here _ _)) eq_refl)
    as (st' & Hrun & Hs & _ & Ha & _ & Hi & _).
  exists st'. repeat split; assumption.
Defined.

(** *** Slots and flags *)

Lemma add_item_heap (st st' : State) (item : ref) (b : bool) :
  add_item st item = Some (b, st') -> quantity_step (heap st) (heap st').
Proof.
  unfold add_item, append_item. intros H.
  destruct (heap st !! item) as [it|]; simpl in H; [|discriminate].
  destruct (negb _); [injection H as <- <-; left; reflexivity|].
  destruct (bool_decide _); [|injection H as <- <-; left; reflexivity].
  destruct (find_first _ _) as [[idx existing]|].
  - destruct (heap st !! existing) as [ex|] eqn:Hex; simpl in H; [|discriminate].
    match type of H with
    | context [?h !! item] => destruct (h !! item)
    end; simpl in H; [|discriminate].
    injection H as <- <-. right. eauto.
  - destruct (bool_decide _); injection H as <- <-; left; reflexivity.
Qed.

Lemma remove_item_heap (st st' : State) (item : ref) (q : Z) (b : bool) :
  remove_item st item q = Some (b, st') -> quantity_step (heap st) (heap st').
Proof.
  unfold remove_item. intros H.
  destruct (heap st !! item) as [it|]; simpl in H; [|discriminate].
  destruct (find_first _ _) as [[idx r0]|]; [|injection H as <- <-; left; reflexivity].
  destruct (heap st !! r0) as [inv_item|] eqn:Hr0; simpl in H; [|discriminate].
  destruct (q <? _).
  - match type of H with
    | context [?h !! item] => destruct (h !! item)
    end; simpl in H; [|discriminate].
    injection H as <- <-. right. eauto.
  - injection H as <- <-. left. reflexivity.
Qed.

Lemma quantity_step_flagged (st st' : State) :
  quantity_step (heap st) (heap st') ->
  equipped_armor (inv st') = equipped_armor (inv st) ->
  equipped_weapon (inv st') = equipped_weapon (inv st) ->
  slots_flagged st -> slots_flagged st'.
Proof.
  intros Hq Ha Hw [Harm Hwpn]. unfold slots_flagged. rewrite Ha, Hw.
  destruct Hq as [->|(r & x & q & Hx & ->)]; [split; assumption|].
  split.
  - intros t r0 Hs. destruct (Harm t r0 Hs) as (f & d & du & Hr0).
    destruct (decide (r = r0)) as [->|Hne].
    + rewrite lookup_insert_eq. assert (x = Armor f t d du true) by congruence.
      subst x. simpl. eauto.
    + rewrite lookup_insert_ne by exact Hne. eauto.
  - intros r0 Hs. destruct (Hwpn r0 Hs) as (f & wt & d & du & rg & Hr0).
    destruct (decide (r = r0)) as [->|Hne].
    + rewrite lookup_insert_eq. assert (x = Weapon f wt d du true rg) by congruence.
      subst x. simpl. eauto 10.
    + rewrite lookup_insert_ne by exact Hne. eauto 10.
Qed.

Lemma unequip_armor_flagged (st st' : State) (t : ArmorType) (b : bool) :
  unequip_armor st t = Some (b, st') ->
  slots_flagged st ->
  slots_flagged st' /\ equipped_armor (inv st') t = None.
Proof.
  unfold unequip_armor. intros H Hfl.
  destruct (equipped_armor (inv st) t) as [r|] eqn:Hr.
  2:{ injection H as <- <-. split; [exact Hfl | exact Hr]. }
  destruct Hfl as [Harm Hwpn].
  destruct (Harm t r Hr) as (f & d & du & Hhr). rewrite Hhr in H. simpl in H.
  injection H as <- <-. split; [|apply set_slot_same]. split; simpl.
  - intros t' r' Hs. apply set_slot_Some in Hs as [[_ ?]|[Hne Hs]]; [discriminate|].
    destruct (Harm t' r' Hs) as (f' & d' & du' & Hr').
    rewrite lookup_insert_ne by (intros ->; congruence). eauto.
  - intros r' Hs. destruct (Hwpn r' Hs) as (f' & wt & d' & du' & rg & Hr').
    rewrite lookup_insert_ne by (intros ->; congruence). eauto 10.
Qed.

Lemma unequip_weapon_flagged (st st' : State) (b : bool) :
  unequip_weapon st = Some (b, st') ->
  slots_flagged st ->
  slots_flagged st' /\ equipped_weapon (inv st') = None.
Proof.
  unfold unequip_weapon. intros H Hfl.
  destruct (equipped_weapon (inv st)) as [r|] eqn:Hr.
  2:{ injection H as <- <-. split; [exact Hfl | exact Hr]. }
  destruct Hfl as [Harm Hwpn].
  destruct (Hwpn r Hr) as (f & wt & d & du & rg & Hhr). rewrite Hhr in H. simpl in H.
  injection H as <- <-. split; [|reflexivity]. split; simpl.
  - intros t' r' Hs. destruct (Harm t' r' Hs) as (f' & d' & du' & Hr').
    rewrite lookup_insert_ne by (intros ->; congruence). eauto.
  - intros r' Hs. discriminate.
Qed.

Lemma equip_armor_flagged (st st' : State) (armor : ref) (b : bool) :
  equip_armor st armor = Some (b, st') ->
  slots_flagged st -> slots_flagged st'.
Proof.
  unfold equip_armor. intros H Hfl.
  destruct (heap st !! armor) as [a|] eqn:Ha; simpl in H; [|discriminate].
  destruct (negb _); [injection H as <- <-; exact Hfl|].
  destruct a as [|f t d du e| |]; try discriminate.
  assert (Hun : exists b1 st1,
             match equipped_armor (inv st) t with
             | Some _ => unequip_armor st t
             | None => Some (false, st)
             end = Some (b1, st1)
             /\ slots_flagged st1
             /\ frozen <$> heap st1 !! armor = frozen <$> heap st !! armor).
  { destruct (equipped_armor (inv st) t) eqn:Hs.
    - destruct (unequip_armor st t) as [[b1 st1]|] eqn:Hu; [|discriminate].
      exists b1, st1. split; [reflexivity|].
      split; [exact (proj1 (unequip_armor_flagged _ _ _ _ Hu Hfl))|].
      exact (unequip_armor_frozen _ _ _ _ _ Hu).
    - exists false, st. split; [reflexivity|]. split; [exact Hfl | reflexivity]. }
  destruct Hun as (b1 & st1 & Hu & [Harm Hwpn] & Hfr). rewrite Hu in H. simpl in H.
  rewrite Ha in Hfr.
  destruct (heap st1 !! armor) as [a1|] eqn:Ha1; simpl in H, Hfr; [|discriminate].
  injection Hfr as Hfr.
  assert (Hk : exists f1 e1, a1 = Armor f1 t d du e1).
  { destruct a1 as [|f1 t1 d1 du1 e1| |]; unfold frozen in Hfr; simpl in Hfr;
      try discriminate.
    assert (t1 = t) by congruence. assert (d1 = d) by congruence.
    assert (du1 = du) by congruence. subst. eauto. }
  destruct Hk as (f1 & e1 & ->). simpl in H. injection H as <- <-.
  split; simpl.
  - intros t' r' Hs. apply set_slot_Some in Hs as [[-> Hs]|[Hne Hs]].
    + injection Hs as <-. rewrite lookup_insert_eq. eauto.
    + destruct (Harm t' r' Hs) as (f' & d' & du' & Hr').
      rewrite lookup_insert_ne by (intros ->; congruence). eauto.
  - intros r' Hs. destruct (Hwpn r' Hs) as (f' & wt & d' & du' & rg & Hr').
    rewrite lookup_insert_ne by (intros ->; congruence). eauto 10.
Qed.

Lemma equip_weapon_flagged (st st' : State) (weapon : ref) (b : bool) :
  equip_weapon st weapon = Some (b, st') ->
  is_Weapon_ref (heap st) weapon = true ->
  slots_flagged st -> slots_flagged st'.
Proof.
  unfold equip_weapon, is_Weapon_ref. intros H Hty Hfl.
  destruct (heap st !! weapon) as [a|] eqn:Ha; simpl in H; [|discriminate].
  destruct (negb _); [injection H as <- <-; exact Hfl|].
  destruct a as [| |f wt d du e rg|]; try discriminate.
  assert (Hun : exists b1 st1,
             match equipped_weapon (inv st) with
             | Some _ => unequip_weapon st
             | None => Some (false, st)
             end = Some (b1, st1)
             /\ slots_flagged st1
             /\ frozen <$> heap st1 !! weapon = frozen <$> heap st !! weapon).
  { destruct (equipped_weapon (inv st)) eqn:Hs.
    - destruct (unequip_weapon st) as [[b1 st1]|] eqn:Hu; [|discriminate].
      exists b1, st1. split; [reflexivity|].
      split; [exact (proj1 (unequip_weapon_flagged _ _ _ Hu Hfl))|].
      exact (unequip_weapon_frozen _ _ _ _ Hu).
    - exists false, st. split; [reflexivity|]. split; [exact Hfl | reflexivity]. }
  destruct Hun as (b1 & st1 & Hu & [Harm Hwpn] & Hfr). rewrite Hu in H. simpl in H.
  rewrite Ha in Hfr.
  destruct (heap st1 !! weapon) as [a1|] eqn:Ha1; simpl in H, Hfr; [|discriminate].
  injection Hfr as Hfr.
  assert (Hk : exists f1 e1, a1 = Weapon f1 wt d du e1 rg).
  { destruct a1 as [| |f1 wt1 d1 du1 e1 rg1|]; unfold frozen in Hfr;
      simpl in Hfr; try discriminate.
    assert (wt1 = wt) by congruence. assert (d1 = d) by congruence.
    assert (du1 = du) by congruence. assert (rg1 = rg) by congruence.
    subst. eauto. }
  destruct Hk as (f1 & e1 & ->). simpl in H. injection H as <- <-.
  split; simpl.
  - intros t' r' Hs. destruct (Harm t' r' Hs) as (f' & d' & du' & Hr').
    rewrite lookup_insert_ne by (intros ->; congruence). eauto.
  - intros r' Hs. injection Hs as <-. rewrite lookup_insert_eq. eauto 10.
Qed.

Lemma call_flagged (st st' : State) (o : Op) (b : bool) :
  call st o = Some (b, st') ->
  (forall r, o = EquipWeapon r -> is_Weapon_ref (heap st) r = true) ->
  slots_flagged st -> slots_flagged st'.
Proof.
  destruct o as [r|r q|r|r|t| |r]; simpl; intros H Hty Hfl.
  - destruct (add_item_slots _ _ _ _ H) as (_ & Ha & Hw).
    exact (quantity_step_flagged _ _ (add_item_heap _ _ _ _ H) Ha Hw Hfl).
  - assert (Hs : equipped_armor (inv st') = equipped_armor (inv st)
                 /\ equipped_weapon (inv st') = equipped_weapon (inv st)).
    { unfold remove_item in H.
      destruct (heap st !! r) as [it|]; simpl in H; [|discriminate].
      destruct (find_first _ _) as [[idx r0]|]; [|injection H as <- <-; auto].
      destruct (heap st !! r0) as [inv_item|]; simpl in H; [|discriminate].
      destruct (q <? _).
      - match type of H with
        | context [?h !! r] => destruct (h !! r)
        end; simpl in H; [|discriminate].
        injection H as <- <-. auto.
      - injection H as <- <-. auto. }
    destruct Hs as [Ha Hw].
    exact (quantity_step_flagged _ _ (remove_item_heap _ _ _ _ _ H) Ha Hw Hfl).
  - exact (equip_armor_flagged _ _ _ _ H Hfl).
  - exact (equip_weapon_flagged _ _ _ _ H (Hty r eq_refl) Hfl).
  - exact (proj1 (unequip_armor_flagged _ _ _ _ H Hfl)).
  - exact (proj1 (unequip_weapon_flagged _ _ _ H Hfl)).
  - unfold use_consumable in H.
    destruct (heap st !! r) as [c|]; simpl in H; [|discriminate].
    destruct (negb _); [injection H as <- <-; exact Hfl|].
    destruct (is_Consumable c); [|discriminate].
    assert (Hs : equipped_armor (inv st') = equipped_armor (inv st)
                 /\ equipped_weapon (inv st') = equipped_weapon (inv st)).
    { unfold remove_item in H.
      destruct (heap st !! r) as [it|]; simpl in H; [|discriminate].
      destruct (find_first _ _) as [[idx r0]|]; [|injection H as <- <-; auto].
      destruct (heap st !! r0) as [inv_item|]; simpl in H; [|discriminate].
      destruct (1 <? _).
      - match type of H with
        | context [?h !! r] => destruct (h !! r)
        end; simpl in H; [|discriminate].
        injection H as <- <-. auto.
      - injection H as <- <-. auto. }
    destruct Hs as [Ha Hw].
    exact (quantity_step_flagged _ _ (remove_item_heap _ _ _ _ _ H) Ha Hw Hfl).
Qed.

(** X21.  From an empty inventory, in any sequence of calls that hands
    [equip_weapon] objects of class [Weapon] only, the occupant of an
    armor slot is always an [Armor] of the slot's type whose [is_equipped]
    is set, and the occupant of the weapon slot is always a [Weapon] whose
    [is_equipped] is set. *)
Theorem slots_flagged_invariant (h : gmap ref Item) (ops : list Op)
    (st' : State) :
  weapons_typed (mkState h Inventory_init) ops = true ->
  run (mkState h Inventory_init) ops = Some st' ->
  slots_flagged st'.
Proof.
  assert (Hgen : forall ops st, slots_flagged st -> weapons_typed st ops = true ->
            run st ops = Some st' -> slots_flagged st').
  { clear ops. intros ops. induction ops as [|o ops IH]; intros st Hfl Hty Hrun;
      simpl in *.
    - injection Hrun as <-. exact Hfl.
    - apply andb_true_iff in Hty as [Ho Hty].
      destruct (call st o) as [[b st1]|] eqn:Hcall; simpl in Hrun; [|discriminate].
      apply (IH st1); [|exact Hty|exact Hrun].
      apply (call_flagged _ _ _ _ Hcall); [|exact Hfl].
      intros r ->. exact Ho. }
  intros Hty Hrun. apply (Hgen ops (mkState h Inventory_init)); [|exact Hty|exact Hrun].
  split; simpl; intros; discriminate.
Qed.

Lemma slots_flagged_invariant_witness :
  exists st',
    run helmet_and_potions
      [AddItem 0%nat; AddItem 1%nat; EquipArmor 0%nat; UseConsumable 1%nat]
    = Some st'
    /\ equipped_armor (inv st') HELMET = Some 0%nat
    /\ slots_flagged st'.
Proof.
  eexists. split; [vm_compute; reflexivity|]. split; [reflexivity|].
  apply (slots_flagged_invariant (heap helmet_and_potions)
           [AddItem 0%nat; AddItem 1%nat; EquipArmor 0%nat; UseConsumable 1%nat]);
    vm_compute; reflexivity.
Defined.

End InventoryProps.

(* ===================================================================== *)
(** ** The entries of the list *)
(* ===================================================================== *)

Module InventoryEntries.
Import InventoryPy InventoryFacts InventoryProps.

(** One call: an entry afterwards was an entry before or is the object
    handed to [add_item], and a list without a duplicate stays so when the
    object added is new. *)
Lemma call_entries (st st' : State) (o : Op) (b : bool) :
  call st o = Some (b, st') ->
  (forall r, r ∈ items (inv st') -> r ∈ items (inv st) \/ o = AddItem r)
  /\ (match o with
      | AddItem item => item ∉ items (inv st)
      | _ => True
      end ->
      NoDup (items (inv st)) -> NoDup (items (inv st'))).
Proof.
  intros Hcall.
  destruct (call_items _ _ _ _ Hcall) as [->|[[idx ->]|(item & -> & -> & _)]].
  - split; [intros r Hr; left; exact Hr | intros _ Hnd; exact Hnd].
  - split.
    + intros r Hr. left. exact (elem_of_sublist _ _ _ Hr (sublist_delete _ idx)).
    + intros _ Hnd. eapply sublist_NoDup; [exact Hnd | apply sublist_delete].
  - split.
    + intros r Hr. apply elem_of_app in Hr as [Hr|Hr]; [left; exact Hr|].
      right. apply list_elem_of_singleton in Hr. congruence.
    + intros Hnew Hnd. apply NoDup_app. split; [exact Hnd|].
      split; [|apply NoDup_singleton].
      intros x Hx Hx'. apply list_elem_of_singleton in Hx'. subst x.
      exact (Hnew Hx).
Qed.

Lemma run_entries (ops : list Op) (st st' : State) :
  run st ops = Some st' ->
  (forall r, r ∈ items (inv st') -> r ∈ items (inv st) \/ AddItem r ∈ ops)
  /\ (adds_new st ops = true ->
      NoDup (items (inv st)) -> NoDup (items (inv st'))).
Proof.
  revert st. induction ops as [|o ops IH]; intros st Hrun; simpl in *.
  - injection Hrun as <-. split; [intros r Hr; left; exact Hr|]. intros _ Hnd.
    exact Hnd.
  - destruct (call st o) as [[b st1]|] eqn:Hcall; simpl in Hrun; [|discriminate].
    destruct (call_entries _ _ _ _ Hcall) as [Hsub Hnd1].
    destruct (IH _ Hrun) as [IHsub IHnd]. split.
    + intros r Hr. destruct (IHsub r Hr) as [Hr1|Hr1].
      * destruct (Hsub r Hr1) as [Hr0| ->]; [left; exact Hr0|].
        right. apply list_elem_of_here.
      * right. apply list_elem_of_further. exact Hr1.
    + intros Hnew Hnd. apply andb_true_iff in Hnew as [Ho Hnew].
      apply IHnd; [exact Hnew|]. apply Hnd1; [|exact Hnd].
      destruct o; try exact I. apply bool_decide_eq_true in Ho. exact Ho.
Qed.

(** *** The contract of the slots is needed *)

(** An equal copy passes the test [x not in self.items]. *)
Lemma equal_copy_contains (st : State) (x : ref) :
  equal_copy st x = true ->
  (x ∉ items (inv st))
  /\ exists it, heap st !! x = Some it /\ contains st x it = true.
Proof.
  unfold equal_copy. intros Hc. apply andb_true_iff in Hc as [Hout Hex].
  apply negb_true_iff, bool_decide_eq_false in Hout. split; [exact Hout|].
  destruct (heap st !! x) as [it|]; [|discriminate].
  exists it. split; [reflexivity|]. unfold contains.
  apply existsb_exists in Hex as (r & Hr & Heq). apply existsb_exists.
  exists r. split; [exact Hr|]. rewrite Heq. apply orb_true_r.
Qed.

(** A removal that takes the last entry of an equipped object leaves the
    slot as it is. *)
Lemma remove_item_strands (st st' : State) (item : ref) (q : Z) (b : bool) :
  keeps_equipped st item q = false ->
  remove_item st item q = Some (b, st') ->
  b = true /\ exists r, is_equipped_ref st' r = true /\ r ∉ items (inv st').
Proof.
  unfold keeps_equipped, dropped_entry, remove_item. intros Hc Hcall.
  destruct (heap st !! item) as [it|]; simpl in *; [|discriminate].
  destruct (find_first _ _) as [[idx r0]|]; simpl in *; [|discriminate].
  destruct (heap st !! r0) as [inv_item|]; simpl in *; [|discriminate].
  destruct (q <? quantity (fields inv_item)); [discriminate|].
  apply orb_false_iff in Hc as [He Hd].
  apply negb_false_iff in He. apply bool_decide_eq_false in Hd.
  injection Hcall as <- <-. split; [reflexivity|].
  exists r0. split; [exact He | exact Hd].
Qed.

(** X23.  The contract of the slots asks for no more than is needed: a
    call that breaks it and returns has returned [True] and leaves an
    equip slot holding an object that is not an entry of the list.  That
    is so when [equip_armor] or [equip_weapon] is handed an equal copy of
    a held object, and when [remove_item] or [use_consumable] takes the
    last entry of an equipped object. *)
Theorem broken_contract_strands_slot (st st' : State) (o : Op) (b : bool) :
  respects_contract st o = false ->
  call st o = Some (b, st') ->
  b = true /\ exists r, is_equipped_ref st' r = true /\ r ∉ items (inv st').
Proof.
  intros Hc Hcall. destruct o as [x|x q|x|x|t| |x]; simpl in *;
    try discriminate.
  - exact (remove_item_strands _ _ _ _ _ Hc Hcall).
  - apply negb_false_iff, equal_copy_contains in Hc
      as (Hout & it & Hit & Hin).
    unfold equip_armor in Hcall. rewrite Hit in Hcall. simpl in Hcall.
    rewrite Hin in Hcall. simpl in Hcall.
    destruct it as [|f t d du e| |]; try discriminate.
    assert (Hun : exists b1 st1,
               match equipped_armor (inv st) t with
               | Some _ => unequip_armor st t
               | None => Some (false, st)
               end = Some (b1, st1)
               /\ items (inv st1) = items (inv st)).
    { destruct (equipped_armor (inv st) t).
      - destruct (unequip_armor st t) as [[b1 st1]|] eqn:Hu; [|discriminate].
        exists b1, st1. split; [reflexivity|].
        exact (proj1 (unequip_armor_slots _ _ _ _ Hu)).
      - exists false, st. split; reflexivity. }
    destruct Hun as (b1 & st1 & Hu & Hi). rewrite Hu in Hcall. simpl in Hcall.
    destruct (heap st1 !! x); simpl in Hcall; [|discriminate].
    injection Hcall as <- <-. split; [reflexivity|]. exists x. split.
    + apply (is_equipped_ref_armor _ t). simpl. apply set_slot_same.
    + simpl. rewrite Hi. exact Hout.
  - apply negb_false_iff, equal_copy_contains in Hc
      as (Hout & it & Hit & Hin).
    unfold equip_weapon in Hcall. rewrite Hit in Hcall. simpl in Hcall.
    rewrite Hin in Hcall. simpl in Hcall.
    assert (Hun : exists b1 st1,
               match equipped_weapon (inv st) with
               | Some _ => unequip_weapon st
               | None => Some (false, st)
               end = Some (b1, st1)
               /\ items (inv st1) = items (inv st)).
    { destruct (equipped_weapon (inv st)).
      - destruct (unequip_weapon st) as [[b1 st1]|] eqn:Hu; [|discriminate].
        exists b1, st1. split; [reflexivity|].
        exact (proj1 (unequip_weapon_slots _ _ _ Hu)).
      - exists false, st. split; reflexivity. }
    destruct Hun as (b1 & st1 & Hu & Hi). rewrite Hu in Hcall. simpl in Hcall.
    destruct (heap st1 !! x); simpl in Hcall; [|discriminate].
    injection Hcall as <- <-. split; [reflexivity|]. exists x. split.
    + apply is_equipped_ref_weapon. reflexivity.
    + simpl. rewrite Hi. exact Hout.
  - unfold use_consumable in Hcall.
    destruct (heap st !! x) as [c|] eqn:Hx; simpl in Hcall; [|discriminate].
    destruct (contains st x c) eqn:Hin; simpl in Hcall.
    + destruct (is_Consumable c); [|discriminate].
      exact (remove_item_strands _ _ _ _ _ Hc Hcall).
    + exfalso. rewrite (contains_find _ _ _ Hx) in Hin.
      unfold keeps_equipped, dropped_entry in Hc. rewrite Hx in Hc.
      simpl in Hc. destruct (find_first _ _); [discriminate|].
      simpl in Hc. discriminate.
Qed.

(** The two runs that refute the unconditional invariant break the
    contract in their last call. *)
Lemma broken_contract_strands_slot_witness :
  exists st st',
    run one_helmet [AddItem 0%nat; EquipArmor 0%nat] = Some st
    /\ call st (RemoveItem 0%nat 1) = Some (true, st')
    /\ exists r, is_equipped_ref st' r = true /\ r ∉ items (inv st').
Proof.
  assert (Hrun : exists st,
             run one_helmet [AddItem 0%nat; EquipArmor 0%nat] = Some st)
    by (eexists; vm_compute; reflexivity).
  destruct Hrun as [st Hrun].
  assert (Hst : Some st = Some (mkState (<[0%nat := helmet true]> ∅)
                   (mkInventory [0%nat]
                      (fun t => if decide (t = HELMET) then Some 0%nat else None)
                      None (1 # 2)))).
  { rewrite <- Hrun. vm_compute. reflexivity. }
  injection Hst as Hst.
  assert (Hcall : exists b st', call st (RemoveItem 0%nat 1) = Some (b, st')).
  { rewrite Hst. eexists _, _. vm_compute. reflexivity. }
  destruct Hcall as (b & st' & Hcall).
  assert (Hc : respects_contract st (RemoveItem 0%nat 1) = false).
  { rewrite Hst. vm_compute. reflexivity. }
  destruct (broken_contract_strands_slot _ _ _ _ Hc Hcall) as [-> Hex].
  exists st, st'. split; [exact Hrun|]. split; [exact Hcall | exact Hex].
Defined.

(** *** Objects are added once *)

(** X22.  From an empty inventory, the list only ever holds objects that
    were handed to [add_item]; and in any sequence of calls in which
    [add_item] is never handed an object that is an entry already, no
    object is an entry twice. *)
Theorem items_added_once (h : gmap ref Item) (ops : list Op) (st' : State) :
  run (mkState h Inventory_init) ops = Some st' ->
  (forall r, r ∈ items (inv st') -> AddItem r ∈ ops)
  /\ (adds_new (mkState h Inventory_init) ops = true ->
      NoDup (items (inv st'))).
Proof.
  intros Hrun. destruct (run_entries _ _ _ Hrun) as [Hsub Hnd]. split.
  - intros r Hr. destruct (Hsub r Hr) as [Hr0|Hr0]; [|exact Hr0].
    simpl in Hr0. apply elem_of_nil in Hr0. destruct Hr0.
  - intros Hnew. apply Hnd; [exact Hnew | apply NoDup_nil_2].
Qed.

(** The helmet and the potions are added once each, a potion is drunk and
    the sword, never added, is turned away by [equip_weapon]: the list
    holds the two objects once each. *)
Lemma items_added_once_witness :
  exists st',
    run adventurer_kit
      [AddItem 0%nat; AddItem 1%nat; UseConsumable 1%nat; EquipWeapon 2%nat]
    = Some st'
    /\ items (inv st') = [0%nat; 1%nat]
    /\ NoDup (items (inv st')).
Proof.
  eexists. split; [vm_compute; reflexivity|]. split; [reflexivity|].
  apply (proj2 (items_added_once (heap adventurer_kit)
                  [AddItem 0%nat; AddItem 1%nat; UseConsumable 1%nat;
                   EquipWeapon 2%nat] _ eq_refl)).
  vm_compute. reflexivity.
Defined.

End InventoryEntries.
